(** * CtrlxCore: session and token lifecycle of [lib/CtrlxCore.js]

    A shallow embedding of the class [CtrlxCore] and the properties of its
    login / logout / data-layer operations.

    Modelling decisions.
    - The instance is a record [CtrlxCore]; every method takes the instance
      and returns the updated one (explicit state passing).
    - The collaborators the class calls ([CtrlxCore._authenticate],
      [CtrlxCore._deleteToken], [CtrlxDatalayer.read/write/create/delete],
      [Date.now], [CtrlxCore._parseJwt]) are an environment [Env]: each call
      is appended to a trace of events and the environment answers as a
      function of the trace so far, so an answer may depend on the arguments
      of the call and on everything that happened before it.
    - A promise is modelled by the value it settles with ([Resolved] or
      [Rejected]), or by [Pending] when a callback throws and the promise
      never settles, and by the instance after its whole promise chain has
      run: one operation runs to completion before the next starts.  For the
      interleavings of overlapping calls see [atomic_step].
    - [logIn] and the data-layer operations call themselves; the embedding
      recurses on a [fuel] argument and [None] means the fuel ran out.
    - JavaScript numbers are integers ([Z]) or [NaN]: timestamps are
      milliseconds, the [exp] and [iat] claims are NumericDate values. *)

From Stdlib Require Import ZArith NArith Ascii String List Bool Lia.
From Stdlib Require Import HexadecimalString.
Import ListNotations.

Local Open Scope string_scope.
Local Open Scope Z_scope.
Local Open Scope list_scope.

(** ** JavaScript data *)

(** Payload values handed to and returned by the Data Layer. *)
#[warnings="-register-all"] Inductive value : Type :=
| VUndefined
| VNull
| VBool (b : bool)
| VNum (n : Z)
| VStr (s : string)
| VObj (members : list (string * value)).

(** A number as the arithmetic on the expiry time sees it. *)
Inductive number : Type :=
| Num (z : Z)
| NaN.

Definition number_sub (a b : number) : number :=
  match a, b with
  | Num x, Num y => Num (x - y)
  | _, _ => NaN
  end.

Definition number_add (a b : number) : number :=
  match a, b with
  | Num x, Num y => Num (x + y)
  | _, _ => NaN
  end.

Definition number_mul (a b : number) : number :=
  match a, b with
  | Num x, Num y => Num (x * y)
  | _, _ => NaN
  end.

(** [a > b]; any comparison with [NaN] is false. *)
Definition number_gt (a b : number) : bool :=
  match a, b with
  | Num x, Num y => y <? x
  | _, _ => false
  end.

(** Errors a promise can be rejected with.  Only [CtrlxProblemError] has a
    [status] member. *)
Inductive error : Type :=
| HttpError (message : string)
| CtrlxProblemError (status : Z) (title : string)
| JsError (message : string)
| Thrown (message : string).

Definition status (err : error) : option Z :=
  match err with
  | CtrlxProblemError s _ => Some s
  | _ => None
  end.

(** [err.status === 401] *)
Definition status_is_401 (err : error) : bool :=
  match status err with
  | Some s => s =? 401
  | None => false
  end.

(** What becomes of a promise: it settles with a value or with an error,
    or it stays pending for ever because the callback that should settle it
    threw. *)
Inductive outcome (A : Type) : Type :=
| Resolved (result : A)
| Rejected (err : error)
| Pending.
Arguments Resolved {A} result.
Arguments Rejected {A} err.
Arguments Pending {A}.

(** A string member of a response: [None] is a missing member.  The test
    [!member] of the source is [negb (truthy member)]: a missing member and
    the empty string are both falsy. *)
Definition truthy (member : option string) : bool :=
  match member with
  | Some s => negb (s =? "")%string
  | None => false
  end.

(** What [_parseJwt] returns.  The code reads only the members [exp] and
    [iat] of the decoded payload; [None] is a missing member.  Reading a
    member of [null] throws, which [PayloadNull] stands for. *)
Inductive jwt_payload : Type :=
| PayloadNull
| Payload (exp iat : option Z).

(** A missing member is [undefined], which arithmetic turns into [NaN]. *)
Definition to_number (member : option Z) : number :=
  match member with
  | Some z => Num z
  | None => NaN
  end.

Inductive parse_result : Type :=
| ParseThrows (err : error)
| ParseReturns (decoded : jwt_payload).

(** ** The collaborators *)

Inductive event : Type :=
| EvAuthenticate (hostname username password : string) (timeout : Z)
| EvDeleteToken (hostname : string) (tokenType token : option string)
    (timeout : Z)
| EvRead (hostname : string) (tokenType token : option string)
    (path : string) (data : value) (type : string) (timeout : Z)
| EvWrite (hostname : string) (tokenType token : option string)
    (path : string) (data : value) (timeout : Z)
| EvCreate (hostname : string) (tokenType token : option string)
    (path : string) (data : value) (timeout : Z)
| EvDelete (hostname : string) (tokenType token : option string)
    (path : string) (timeout : Z)
| EvNow.

(** The trace holds the newest event first. *)
Definition trace : Type := list event.

(** What [_authenticate] does with its callback.  It calls [callback(err)]
    on a request error and [callback(problem, null)] on a status other than
    201: [AuthError].  On status 201 it calls
    [callback(null, JSON.parse(data))], handing on whatever [JSON.parse]
    returns: [AuthNull] is the body [null]; [AuthData] is any other value, of
    which the code reads the members [access_token] and [token_type] (both
    missing from a number, a string, a boolean or an array).  When the body
    is not JSON, [JSON.parse] throws inside the handler of the response and
    the callback is not called at all: [AuthNoCallback]. *)
Inductive auth_reply : Type :=
| AuthError (err : error)
| AuthNull
| AuthNoCallback
| AuthData (access_token token_type : option string).

(** The replies after which the promise of [logIn] never settles. *)
Definition leaves_pending (reply : auth_reply) : bool :=
  match reply with
  | AuthNull | AuthNoCallback => true
  | AuthError _ | AuthData _ _ => false
  end.

(** [callback(err, data)] of the four [CtrlxDatalayer] functions.  An error
    comes with whatever the function passes as second argument. *)
Inductive datalayer_reply_t : Type :=
| DlError (err : error) (data : value)
| DlOk (data : value).

Record Env : Type := {
  authenticate_reply : trace -> auth_reply;
  deleteToken_reply : trace -> option error;
  datalayer_reply : trace -> datalayer_reply_t;
  Date_now : trace -> Z;
  parseJwt : string -> parse_result
}.

(** ** The instance *)

Inductive session_state : Type :=
| STATE_LOGGED_OUT
| STATE_LOGGED_IN
| STATE_AUTHENTICATING.

Record CtrlxCore : Type := {
  _hostname : string;
  _username : string;
  _password : string;
  _token : option string;
  _tokenType : option string;
  _token_decoded : option jwt_payload;
  _token_expireTime : number;
  _state : session_state;
  _timeout : Z;
  _autoReconnect : bool
}.

Definition constructor (hostname username password : string) (now : Z)
  : CtrlxCore :=
  {| _hostname := hostname;
     _username := username;
     _password := password;
     _token := None;
     _tokenType := None;
     _token_decoded := None;
     _token_expireTime := Num now;
     _state := STATE_LOGGED_OUT;
     _timeout := -1;
     _autoReconnect := false |}.

Definition set_token (v : option string) (c : CtrlxCore) : CtrlxCore :=
  {| _hostname := _hostname c; _username := _username c;
     _password := _password c; _token := v; _tokenType := _tokenType c;
     _token_decoded := _token_decoded c;
     _token_expireTime := _token_expireTime c; _state := _state c;
     _timeout := _timeout c; _autoReconnect := _autoReconnect c |}.

Definition set_tokenType (v : option string) (c : CtrlxCore) : CtrlxCore :=
  {| _hostname := _hostname c; _username := _username c;
     _password := _password c; _token := _token c; _tokenType := v;
     _token_decoded := _token_decoded c;
     _token_expireTime := _token_expireTime c; _state := _state c;
     _timeout := _timeout c; _autoReconnect := _autoReconnect c |}.

Definition set_token_decoded (v : option jwt_payload) (c : CtrlxCore)
  : CtrlxCore :=
  {| _hostname := _hostname c; _username := _username c;
     _password := _password c; _token := _token c;
     _tokenType := _tokenType c; _token_decoded := v;
     _token_expireTime := _token_expireTime c; _state := _state c;
     _timeout := _timeout c; _autoReconnect := _autoReconnect c |}.

Definition set_token_expireTime (v : number) (c : CtrlxCore) : CtrlxCore :=
  {| _hostname := _hostname c; _username := _username c;
     _password := _password c; _token := _token c;
     _tokenType := _tokenType c; _token_decoded := _token_decoded c;
     _token_expireTime := v; _state := _state c;
     _timeout := _timeout c; _autoReconnect := _autoReconnect c |}.

Definition set_state (v : session_state) (c : CtrlxCore) : CtrlxCore :=
  {| _hostname := _hostname c; _username := _username c;
     _password := _password c; _token := _token c;
     _tokenType := _tokenType c; _token_decoded := _token_decoded c;
     _token_expireTime := _token_expireTime c; _state := v;
     _timeout := _timeout c; _autoReconnect := _autoReconnect c |}.

(** [get timeout()] and [set timeout(newTimeout)] *)
Definition timeout (c : CtrlxCore) : Z := _timeout c.

Definition set_timeout (newTimeout : Z) (c : CtrlxCore) : CtrlxCore :=
  {| _hostname := _hostname c; _username := _username c;
     _password := _password c; _token := _token c;
     _tokenType := _tokenType c; _token_decoded := _token_decoded c;
     _token_expireTime := _token_expireTime c; _state := _state c;
     _timeout := newTimeout; _autoReconnect := _autoReconnect c |}.

(** [get autoReconnect()] and [set autoReconnect(newAutoReconnect)] *)
Definition autoReconnect (c : CtrlxCore) : bool := _autoReconnect c.

Definition set_autoReconnect (newAutoReconnect : bool) (c : CtrlxCore)
  : CtrlxCore :=
  {| _hostname := _hostname c; _username := _username c;
     _password := _password c; _token := _token c;
     _tokenType := _tokenType c; _token_decoded := _token_decoded c;
     _token_expireTime := _token_expireTime c; _state := _state c;
     _timeout := _timeout c; _autoReconnect := newAutoReconnect |}.

(** The four assignments
    [_token = undefined; _tokenType = undefined; _token_decoded = undefined;
     _state = STATE_LOGGED_OUT]
    that [logIn] (three times) and [logOut] (once) perform. *)
Definition invalidate (c : CtrlxCore) : CtrlxCore :=
  set_state STATE_LOGGED_OUT
    (set_token_decoded None (set_tokenType None (set_token None c))).

(** ** logOut *)

Definition logOut (env : Env) (c : CtrlxCore) (w : trace)
  : outcome unit * CtrlxCore * trace :=
  let w1 :=
    EvDeleteToken (_hostname c) (_tokenType c) (_token c) (_timeout c) :: w in
  match deleteToken_reply env w1 with
  | Some err => (Rejected err, invalidate c, w1)
  | None => (Resolved tt, invalidate c, w1)
  end.

(** ** logIn *)

(** The object [logIn] resolves with: the response data with the two members
    the method adds to it. *)
Record token_data : Type := {
  access_token : option string;
  token_type : option string;
  token_decoded : jwt_payload;
  token_expireTime : number
}.

Definition logged_in_or_authenticating (s : session_state) : bool :=
  match s with
  | STATE_LOGGED_IN | STATE_AUTHENTICATING => true
  | STATE_LOGGED_OUT => false
  end.

Definition string_of (member : option string) : string :=
  match member with
  | Some s => s
  | None => ""
  end.

Fixpoint logIn (fuel : nat) (env : Env) (c : CtrlxCore) (w : trace)
  : option (outcome token_data * CtrlxCore * trace) :=
  match fuel with
  | O => None
  | S fuel' =>
    if logged_in_or_authenticating (_state c) then
      let '(_, c1, w1) := logOut env c w in
      logIn fuel' env c1 w1
    else
      let c1 := set_state STATE_AUTHENTICATING c in
      let w1 :=
        EvAuthenticate (_hostname c) (_username c) (_password c) (_timeout c)
          :: w in
      match authenticate_reply env w1 with
      | AuthError err => Some (Rejected err, invalidate c1, w1)
      | AuthNull =>
        (* [!data.access_token] throws in the callback, before the [try] *)
        Some (Pending, c1, w1)
      | AuthNoCallback => Some (Pending, c1, w1)
      | AuthData access token_t =>
        if negb (truthy access) || negb (truthy token_t) then
          Some (Rejected
                  (JsError
                     "Did not receive expected data as authentication response"),
                invalidate c1, w1)
        else
          let c2 :=
            set_state STATE_LOGGED_IN
              (set_tokenType token_t (set_token access c1)) in
          match parseJwt env (string_of access) with
          | ParseThrows err => Some (Rejected err, invalidate c2, w1)
          | ParseReturns decoded =>
            let c3 := set_token_decoded (Some decoded) c2 in
            match decoded with
            | PayloadNull =>
              Some (Rejected
                      (Thrown "TypeError: Cannot read properties of null"),
                    invalidate c3, w1)
            | Payload exp iat =>
              let tokenExpiresInSeconds :=
                number_sub (number_sub (to_number exp) (to_number iat))
                  (Num 30) in
              let w2 := EvNow :: w1 in
              let expireTime :=
                number_add (Num (Date_now env w2))
                  (number_mul tokenExpiresInSeconds (Num 1000)) in
              Some (Resolved
                      {| access_token := access;
                         token_type := token_t;
                         token_decoded := decoded;
                         token_expireTime := expireTime |},
                    set_token_expireTime expireTime c3, w2)
            end
          end
      end
  end.

(** ** The data-layer operations *)

Definition is_logged_in (s : session_state) : bool :=
  match s with
  | STATE_LOGGED_IN => true
  | _ => false
  end.

(** [.then(() => retry).then(resolve).catch(reject)] after a [logIn]: a
    failed login rejects the operation, a successful one hands over to
    [retry], and while the login is pending so is the operation. *)
Definition after_logIn {A B : Type}
    (login : option (outcome A * CtrlxCore * trace))
    (retry : CtrlxCore -> trace -> option (outcome B * CtrlxCore * trace))
  : option (outcome B * CtrlxCore * trace) :=
  match login with
  | None => None
  | Some (Rejected err, c1, w1) => Some (Rejected err, c1, w1)
  | Some (Pending, c1, w1) => Some (Pending, c1, w1)
  | Some (Resolved _, c1, w1) => retry c1 w1
  end.

(** [.finally(() => { this._state = STATE_LOGGED_IN; })]: the callback runs
    once the chain has settled, and never on a pending chain. *)
Definition finally_logged_in {B : Type}
    (settled : option (outcome B * CtrlxCore * trace))
  : option (outcome B * CtrlxCore * trace) :=
  match settled with
  | None => None
  | Some (Pending, c1, w1) => Some (Pending, c1, w1)
  | Some (r, c1, w1) => Some (r, set_state STATE_LOGGED_IN c1, w1)
  end.

Fixpoint datalayerRead (fuel : nat) (env : Env) (path : string)
    (data : value) (type : string) (c : CtrlxCore) (w : trace)
  : option (outcome value * CtrlxCore * trace) :=
  match fuel with
  | O => None
  | S fuel' =>
    if negb (is_logged_in (_state c)) then
      Some (Rejected
              (JsError
                 "Failed to read from Data Layer. Not authenticated. Please login first."),
            c, w)
    else
      let w1 := EvNow :: w in
      if number_gt (Num (Date_now env w1)) (_token_expireTime c) then
        after_logIn (logIn fuel' env c w1)
          (datalayerRead fuel' env path data type)
      else
        let w2 :=
          EvRead (_hostname c) (_tokenType c) (_token c) path data type
            (_timeout c) :: w1 in
        (* the callback is [(err, data) => ...]: inside it [data] is the
           callback's second argument *)
        match datalayer_reply env w2 with
        | DlError err data =>
          if status_is_401 err && _autoReconnect c then
            finally_logged_in
              (after_logIn (logIn fuel' env c w2)
                 (datalayerRead fuel' env path data type))
          else Some (Rejected err, c, w2)
        | DlOk data => Some (Resolved data, c, w2)
        end
  end.

Fixpoint datalayerWrite (fuel : nat) (env : Env) (path : string)
    (data : value) (c : CtrlxCore) (w : trace)
  : option (outcome value * CtrlxCore * trace) :=
  match fuel with
  | O => None
  | S fuel' =>
    if negb (is_logged_in (_state c)) then
      Some (Rejected
              (JsError
                 "Failed to read from Data Layer. Not authenticated. Please login first."),
            c, w)
    else
      let w1 := EvNow :: w in
      if number_gt (Num (Date_now env w1)) (_token_expireTime c) then
        after_logIn (logIn fuel' env c w1)
          (datalayerWrite fuel' env path data)
      else
        let w2 :=
          EvWrite (_hostname c) (_tokenType c) (_token c) path data
            (_timeout c) :: w1 in
        match datalayer_reply env w2 with
        | DlError err dataReturned =>
          if status_is_401 err && _autoReconnect c then
            finally_logged_in
              (after_logIn (logIn fuel' env c w2)
                 (datalayerWrite fuel' env path data))
          else Some (Rejected err, c, w2)
        | DlOk dataReturned => Some (Resolved dataReturned, c, w2)
        end
  end.

Definition datalayerReadMetadata (fuel : nat) (env : Env) (path : string)
    (c : CtrlxCore) (w : trace)
  : option (outcome value * CtrlxCore * trace) :=
  datalayerRead fuel env path VUndefined "metadata" c w.

Definition datalayerBrowse (fuel : nat) (env : Env) (path : string)
    (c : CtrlxCore) (w : trace)
  : option (outcome value * CtrlxCore * trace) :=
  datalayerRead fuel env path VUndefined "browse" c w.

Fixpoint datalayerCreate (fuel : nat) (env : Env) (path : string)
    (data : value) (c : CtrlxCore) (w : trace)
  : option (outcome value * CtrlxCore * trace) :=
  match fuel with
  | O => None
  | S fuel' =>
    if negb (is_logged_in (_state c)) then
      Some (Rejected
              (JsError
                 "Failed to create node on Data Layer. Not authenticated. Please login first."),
            c, w)
    else
      let w1 := EvNow :: w in
      if number_gt (Num (Date_now env w1)) (_token_expireTime c) then
        after_logIn (logIn fuel' env c w1)
          (datalayerCreate fuel' env path data)
      else
        let w2 :=
          EvCreate (_hostname c) (_tokenType c) (_token c) path data
            (_timeout c) :: w1 in
        match datalayer_reply env w2 with
        | DlError err dataReturned =>
          if status_is_401 err && _autoReconnect c then
            finally_logged_in
              (after_logIn (logIn fuel' env c w2)
                 (datalayerCreate fuel' env path data))
          else Some (Rejected err, c, w2)
        | DlOk dataReturned => Some (Resolved dataReturned, c, w2)
        end
  end.

(** [datalayerDelete] resolves with no value: [resolve()]. *)
Fixpoint datalayerDelete (fuel : nat) (env : Env) (path : string)
    (c : CtrlxCore) (w : trace)
  : option (outcome value * CtrlxCore * trace) :=
  match fuel with
  | O => None
  | S fuel' =>
    if negb (is_logged_in (_state c)) then
      Some (Rejected
              (JsError
                 "Failed to delete node on Data Layer. Not authenticated. Please login first."),
            c, w)
    else
      let w1 := EvNow :: w in
      if number_gt (Num (Date_now env w1)) (_token_expireTime c) then
        after_logIn (logIn fuel' env c w1) (datalayerDelete fuel' env path)
      else
        let w2 :=
          EvDelete (_hostname c) (_tokenType c) (_token c) path (_timeout c)
            :: w1 in
        match datalayer_reply env w2 with
        | DlError err _ =>
          if status_is_401 err && _autoReconnect c then
            finally_logged_in
              (after_logIn (logIn fuel' env c w2)
                 (datalayerDelete fuel' env path))
          else Some (Rejected err, c, w2)
        | DlOk _ => Some (Resolved VUndefined, c, w2)
        end
  end.

(** ** The operations as one call *)

(** The public data-layer methods with their arguments. *)
Inductive operation : Type :=
| Read (path : string) (data : value) (type : string)
| Write (path : string) (data : value)
| Create (path : string) (data : value)
| Delete (path : string)
| ReadMetadata (path : string)
| Browse (path : string).

(** Calling a method of the instance. *)
Definition call (fuel : nat) (env : Env) (op : operation) (c : CtrlxCore)
    (w : trace) : option (outcome value * CtrlxCore * trace) :=
  match op with
  | Read path data type => datalayerRead fuel env path data type c w
  | Write path data => datalayerWrite fuel env path data c w
  | Create path data => datalayerCreate fuel env path data c w
  | Delete path => datalayerDelete fuel env path c w
  | ReadMetadata path => datalayerReadMetadata fuel env path c w
  | Browse path => datalayerBrowse fuel env path c w
  end.

(** The message of the error a method rejects with when the instance is not
    logged in. *)
Definition not_authenticated (op : operation) : string :=
  match op with
  | Read _ _ _ | Write _ _ | ReadMetadata _ | Browse _ =>
    "Failed to read from Data Layer. Not authenticated. Please login first."
  | Create _ _ =>
    "Failed to create node on Data Layer. Not authenticated. Please login first."
  | Delete _ =>
    "Failed to delete node on Data Layer. Not authenticated. Please login first."
  end.

(** The [CtrlxDatalayer] call a method makes on instance [c]. *)
Definition transport_call (c : CtrlxCore) (op : operation) : event :=
  match op with
  | Read path data type =>
    EvRead (_hostname c) (_tokenType c) (_token c) path data type (_timeout c)
  | Write path data =>
    EvWrite (_hostname c) (_tokenType c) (_token c) path data (_timeout c)
  | Create path data =>
    EvCreate (_hostname c) (_tokenType c) (_token c) path data (_timeout c)
  | Delete path =>
    EvDelete (_hostname c) (_tokenType c) (_token c) path (_timeout c)
  | ReadMetadata path =>
    EvRead (_hostname c) (_tokenType c) (_token c) path VUndefined "metadata"
      (_timeout c)
  | Browse path =>
    EvRead (_hostname c) (_tokenType c) (_token c) path VUndefined "browse"
      (_timeout c)
  end.

(** The method call made again after a reconnect, [returned] being the second
    argument the transport callback received with the error: the read
    callback names its second argument [data], the others [dataReturned]. *)
Definition retried (op : operation) (returned : value) : operation :=
  match op with
  | Read path _ type => Read path returned type
  | ReadMetadata path => Read path returned "metadata"
  | Browse path => Read path returned "browse"
  | Write path data => Write path data
  | Create path data => Create path data
  | Delete path => Delete path
  end.

(** What a method resolves with when the transport call returned
    [returned]. *)
Definition resolved_with (op : operation) (returned : value) : value :=
  match op with
  | Delete _ => VUndefined
  | _ => returned
  end.

(** The shape the four methods share (the wrapper the specification calls
    [invoke]); [call_invoke] below proves each method equal to it. *)
Fixpoint invoke (fuel : nat) (env : Env) (op : operation) (c : CtrlxCore)
    (w : trace) : option (outcome value * CtrlxCore * trace) :=
  match fuel with
  | O => None
  | S fuel' =>
    if negb (is_logged_in (_state c)) then
      Some (Rejected (JsError (not_authenticated op)), c, w)
    else
      let w1 := EvNow :: w in
      if number_gt (Num (Date_now env w1)) (_token_expireTime c) then
        after_logIn (logIn fuel' env c w1) (invoke fuel' env op)
      else
        let w2 := transport_call c op :: w1 in
        match datalayer_reply env w2 with
        | DlError err returned =>
          if status_is_401 err && _autoReconnect c then
            finally_logged_in
              (after_logIn (logIn fuel' env c w2)
                 (invoke fuel' env (retried op returned)))
          else Some (Rejected err, c, w2)
        | DlOk returned => Some (Resolved (resolved_with op returned), c, w2)
        end
  end.

(** ** Predicates of the claims *)


Definition tokens_absent (c : CtrlxCore) : Prop :=
  _token c = None /\ _tokenType c = None /\ _token_decoded c = None.



(** The transport answers an authorization error to the call that heads the
    trace. *)
Definition unauthorized (env : Env) (w : trace) : bool :=
  match datalayer_reply env w with
  | DlError err _ => status_is_401 err
  | DlOk _ => false
  end.

(** The trace before [logIn] calls [_authenticate]: a logged-in or
    authenticating instance logs out first. *)
Definition logIn_trace (c : CtrlxCore) (w : trace) : trace :=
  if logged_in_or_authenticating (_state c) then
    EvDeleteToken (_hostname c) (_tokenType c) (_token c) (_timeout c) :: w
  else w.

Definition authenticate_call (c : CtrlxCore) : event :=
  EvAuthenticate (_hostname c) (_username c) (_password c) (_timeout c).

(** Why a login fails, [w] being the trace headed by the call of
    [_authenticate]: the exchange fails, the response lacks a member, or
    decoding the token throws. *)
Inductive login_failure (env : Env) (w : trace) : error -> Prop :=
| exchange_fails err :
    authenticate_reply env w = AuthError err ->
    login_failure env w err
| member_missing access token_t :
    authenticate_reply env w = AuthData access token_t ->
    negb (truthy access) || negb (truthy token_t) = true ->
    login_failure env w
      (JsError "Did not receive expected data as authentication response")
| decoding_throws access token_t err :
    authenticate_reply env w = AuthData access token_t ->
    negb (truthy access) || negb (truthy token_t) = false ->
    parseJwt env (string_of access) = ParseThrows err ->
    login_failure env w err
| payload_is_null access token_t :
    authenticate_reply env w = AuthData access token_t ->
    negb (truthy access) || negb (truthy token_t) = false ->
    parseJwt env (string_of access) = ParseReturns PayloadNull ->
    login_failure env w (Thrown "TypeError: Cannot read properties of null").





(** The data-layer calls of a trace. *)
Definition is_transport_call (e : event) : bool :=
  match e with
  | EvRead _ _ _ _ _ _ _ | EvWrite _ _ _ _ _ _ | EvCreate _ _ _ _ _ _
  | EvDelete _ _ _ _ _ => true
  | _ => false
  end.

Definition is_authenticate_call (e : event) : bool :=
  match e with
  | EvAuthenticate _ _ _ _ => true
  | _ => false
  end.

Definition transport_calls (w : trace) : nat :=
  length (filter is_transport_call w).

Definition authenticate_calls (w : trace) : nat :=
  length (filter is_authenticate_call w).

(** The fields no method writes after construction, and the two only their
    setters write. *)
Definition same_config (c c' : CtrlxCore) : Prop :=
  _hostname c' = _hostname c /\ _username c' = _username c /\
  _password c' = _password c /\ _timeout c' = _timeout c /\
  _autoReconnect c' = _autoReconnect c.

(** What a successful login leaves in the instance and in the object it
    resolves with; [w1] is the trace headed by the call of [_authenticate],
    [w'] the trace after the login. *)
Definition login_success (env : Env) (w1 w' : trace) (d : token_data)
    (c' : CtrlxCore) : Prop :=
  exists exp iat,
    authenticate_reply env w1 = AuthData (access_token d) (token_type d) /\
    truthy (access_token d) = true /\ truthy (token_type d) = true /\
    parseJwt env (string_of (access_token d)) =
      ParseReturns (Payload exp iat) /\
    token_decoded d = Payload exp iat /\
    w' = EvNow :: w1 /\
    _token c' = access_token d /\
    _tokenType c' = token_type d /\
    _token_decoded c' = Some (Payload exp iat) /\
    _state c' = STATE_LOGGED_IN /\
    _token_expireTime c' =
      number_add (Num (Date_now env w'))
        (number_mul
           (number_sub (number_sub (to_number exp) (to_number iat)) (Num 30))
           (Num 1000)) /\
    token_expireTime d = _token_expireTime c'.

(** The state and the trace a login ends with, by its outcome. *)
Definition logIn_post (env : Env) (c : CtrlxCore) (w : trace)
    (r : outcome token_data) (c' : CtrlxCore) (w' : trace) : Prop :=
  let w1 := authenticate_call c :: logIn_trace c w in
  same_config c c' /\
  match r with
  | Rejected err =>
    tokens_absent c' /\ _state c' = STATE_LOGGED_OUT /\ w' = w1 /\
    login_failure env w1 err
  | Resolved d => login_success env w1 w' d c'
  | Pending =>
    leaves_pending (authenticate_reply env w1) = true /\ w' = w1 /\
    c' = set_state STATE_AUTHENTICATING
           (if logged_in_or_authenticating (_state c) then invalidate c
            else c)
  end.

(** The fields of the session, which the setters leave alone. *)
Definition same_session (c c' : CtrlxCore) : Prop :=
  _token c' = _token c /\ _tokenType c' = _tokenType c /\
  _token_decoded c' = _token_decoded c /\
  _token_expireTime c' = _token_expireTime c /\ _state c' = _state c.

(** The expiry the specification words describe, in seconds:
    [issuedAt + (expiresAt - issuedAt) - renewalSkew]. *)
Definition expireAt_spec (issuedAt expiresAt : Z) : Z :=
  issuedAt + (expiresAt - issuedAt) - 30.

(** C2 as stated, for one call: at most the original transport call and one
    retry, and at most one login. *)
Definition single_retry_claim (fuel : nat) (env : Env) (op : operation)
    (c : CtrlxCore) (w : trace) : Prop :=
  forall r c' w',
    call fuel env op c w = Some (r, c', w') ->
    (transport_calls w' <= transport_calls w + 2)%nat /\
    (authenticate_calls w' <= authenticate_calls w + 1)%nat.

(** What a data-layer call hands to the transport besides path and data:
    host name, token type, token and timeout. *)
Definition credentials (e : event)
  : option (string * option string * option string * Z) :=
  match e with
  | EvRead hostname tokenType token _ _ _ timeout
  | EvWrite hostname tokenType token _ _ timeout
  | EvCreate hostname tokenType token _ _ timeout
  | EvDelete hostname tokenType token _ timeout =>
    Some (hostname, tokenType, token, timeout)
  | _ => None
  end.

(** [w'] is [w] with later events added. *)
Definition extends (w' w : trace) : Prop := exists later, w' = later ++ w.

(** The instance after the [.finally] of a chain that ended with [r] on the
    instance [c]. *)
Definition after_finally {A : Type} (r : outcome A) (c : CtrlxCore)
  : CtrlxCore :=
  match r with
  | Pending => c
  | _ => set_state STATE_LOGGED_IN c
  end.

(** How a call of a data-layer method that ended with [r], leaving the
    instance [c'] and the trace [w'], went: one case for each way through the
    body of the method. *)
Inductive invoke_step (fuel : nat) (env : Env) (op : operation)
    (c : CtrlxCore) (w : trace) (r : outcome value) (c' : CtrlxCore)
    (w' : trace) : Prop :=
| not_logged_in :
    is_logged_in (_state c) = false ->
    r = Rejected (JsError (not_authenticated op)) -> c' = c -> w' = w ->
    invoke_step fuel env op c w r c' w'
| renewal_failed err :
    _state c = STATE_LOGGED_IN ->
    number_gt (Num (Date_now env (EvNow :: w))) (_token_expireTime c)
      = true ->
    logIn fuel env c (EvNow :: w) = Some (Rejected err, c', w') ->
    r = Rejected err ->
    invoke_step fuel env op c w r c' w'
| renewed d c1 w1 :
    _state c = STATE_LOGGED_IN ->
    number_gt (Num (Date_now env (EvNow :: w))) (_token_expireTime c)
      = true ->
    logIn fuel env c (EvNow :: w) = Some (Resolved d, c1, w1) ->
    invoke fuel env op c1 w1 = Some (r, c', w') ->
    invoke_step fuel env op c w r c' w'
| answered returned :
    _state c = STATE_LOGGED_IN ->
    number_gt (Num (Date_now env (EvNow :: w))) (_token_expireTime c)
      = false ->
    datalayer_reply env (transport_call c op :: EvNow :: w) = DlOk returned ->
    r = Resolved (resolved_with op returned) -> c' = c ->
    w' = transport_call c op :: EvNow :: w ->
    invoke_step fuel env op c w r c' w'
| failed err returned :
    _state c = STATE_LOGGED_IN ->
    number_gt (Num (Date_now env (EvNow :: w))) (_token_expireTime c)
      = false ->
    datalayer_reply env (transport_call c op :: EvNow :: w)
      = DlError err returned ->
    status_is_401 err && _autoReconnect c = false ->
    r = Rejected err -> c' = c ->
    w' = transport_call c op :: EvNow :: w ->
    invoke_step fuel env op c w r c' w'
| reconnect_failed err returned err' c1 :
    _state c = STATE_LOGGED_IN ->
    number_gt (Num (Date_now env (EvNow :: w))) (_token_expireTime c)
      = false ->
    datalayer_reply env (transport_call c op :: EvNow :: w)
      = DlError err returned ->
    status_is_401 err && _autoReconnect c = true ->
    logIn fuel env c (transport_call c op :: EvNow :: w)
      = Some (Rejected err', c1, w') ->
    r = Rejected err' -> c' = set_state STATE_LOGGED_IN c1 ->
    invoke_step fuel env op c w r c' w'
| reconnected err returned d c1 w1 c2 :
    _state c = STATE_LOGGED_IN ->
    number_gt (Num (Date_now env (EvNow :: w))) (_token_expireTime c)
      = false ->
    datalayer_reply env (transport_call c op :: EvNow :: w)
      = DlError err returned ->
    status_is_401 err && _autoReconnect c = true ->
    logIn fuel env c (transport_call c op :: EvNow :: w)
      = Some (Resolved d, c1, w1) ->
    invoke fuel env (retried op returned) c1 w1 = Some (r, c2, w') ->
    c' = after_finally r c2 ->
    invoke_step fuel env op c w r c' w'
| renewal_pending :
    _state c = STATE_LOGGED_IN ->
    number_gt (Num (Date_now env (EvNow :: w))) (_token_expireTime c)
      = true ->
    logIn fuel env c (EvNow :: w) = Some (Pending, c', w') ->
    r = Pending ->
    invoke_step fuel env op c w r c' w'
| reconnect_pending err returned :
    _state c = STATE_LOGGED_IN ->
    number_gt (Num (Date_now env (EvNow :: w))) (_token_expireTime c)
      = false ->
    datalayer_reply env (transport_call c op :: EvNow :: w)
      = DlError err returned ->
    status_is_401 err && _autoReconnect c = true ->
    logIn fuel env c (transport_call c op :: EvNow :: w)
      = Some (Pending, c', w') ->
    r = Pending ->
    invoke_step fuel env op c w r c' w'.

(** ** Scenarios *)

(** A device whose tokens are valid for an hour from [iat = 0]. *)
Definition device_env (auth : trace -> auth_reply)
    (transport : trace -> datalayer_reply_t) (now : Z) : Env :=
  {| authenticate_reply := auth;
     deleteToken_reply := fun _ => None;
     datalayer_reply := transport;
     Date_now := fun _ => now;
     parseJwt := fun _ => ParseReturns (Payload (Some 3600) (Some 0)) |}.

(** The device numbers the tokens it issues. *)
Definition issue_token (w : trace) : auth_reply :=
  AuthData
    (Some (match authenticate_calls w with
           | 1%nat => "token-1"
           | 2%nat => "token-2"
           | _ => "token-3"
           end))
    (Some "Bearer").

Definition unauthorized_error : error := CtrlxProblemError 401 "Unauthorized".

Definition fresh_instance : CtrlxCore :=
  constructor "192.168.1.1" "boschrexroth" "boschrexroth" 1000.

(** The instance after a login at clock reading 1000. *)
Definition logged_in_instance (auto : bool) : CtrlxCore :=
  {| _hostname := "192.168.1.1";
     _username := "boschrexroth";
     _password := "boschrexroth";
     _token := Some "token-1";
     _tokenType := Some "Bearer";
     _token_decoded := Some (Payload (Some 3600) (Some 0));
     _token_expireTime := Num 3571000;
     _state := STATE_LOGGED_IN;
     _timeout := -1;
     _autoReconnect := auto |}.

Definition login_events : trace :=
  [EvNow; EvAuthenticate "192.168.1.1" "boschrexroth" "boschrexroth" (-1)].

(** The transport answers 401 to everything and the device accepts one
    login only. *)
Definition env_login_once : Env :=
  device_env
    (fun w =>
       if (authenticate_calls w <=? 1)%nat then issue_token w
       else AuthError (HttpError "connect ECONNREFUSED"))
    (fun _ => DlError unauthorized_error VNull)
    1000.

(** The transport answers 401 to the first two calls it gets. *)
Definition env_unauthorized_twice : Env :=
  device_env issue_token
    (fun w =>
       if (transport_calls w <=? 2)%nat then DlError unauthorized_error VNull
       else DlOk (VNum 5))
    1000.

(** The transport answers 401 to the first call, and then adds the two
    arguments of a read of [test/add]; a read without arguments is a bad
    request. *)
Definition env_unauthorized_once : Env :=
  device_env issue_token
    (fun w =>
       if (transport_calls w <=? 1)%nat then DlError unauthorized_error VNull
       else
         match w with
         | EvRead _ _ _ _ (VObj [(_, VNum a); (_, VNum b)]) _ _ :: _ =>
           DlOk (VObj [("type", VStr "uint32"); ("value", VNum (a + b))])
         | EvRead _ _ _ _ _ _ _ :: _ =>
           DlError (CtrlxProblemError 400 "Bad Request") VNull
         | _ => DlOk VNull
         end)
    1000.

Definition add_arguments : value :=
  VObj [("arg1", VNum 17); ("arg2", VNum 5)].

(** A device that answers every call, seen at a given clock reading. *)
Definition env_answering (now : Z) : Env :=
  device_env issue_token (fun _ => DlOk (VNum 5)) now.

(** The clock reads five seconds after the token was issued. *)
Definition env_clock_skew : Env :=
  {| authenticate_reply := issue_token;
     deleteToken_reply := fun _ => None;
     datalayer_reply := fun _ => DlOk VNull;
     Date_now := fun _ => 1600000005000;
     parseJwt := fun _ =>
       ParseReturns (Payload (Some 1600003600) (Some 1600000000)) |}.

(** The clock reads the instant the token was issued. *)
Definition env_clock_exact : Env :=
  {| authenticate_reply := issue_token;
     deleteToken_reply := fun _ => None;
     datalayer_reply := fun _ => DlOk VNull;
     Date_now := fun _ => 1600000000000;
     parseJwt := fun _ =>
       ParseReturns (Payload (Some 1600003600) (Some 1600000000)) |}.

(** The device is unreachable. *)
Definition env_unreachable : Env :=
  device_env (fun _ => AuthError (HttpError "connect ECONNREFUSED"))
    (fun _ => DlError (HttpError "connect ECONNREFUSED") VUndefined) 1000.

(** The instance after the login the expired token causes at clock reading
    4000000. *)
Definition renewed_instance : CtrlxCore :=
  set_token_expireTime (Num 7570000)
    (set_token (Some "token-2") (logged_in_instance false)).

Definition renewal_events : trace :=
  [EvNow;
   EvAuthenticate "192.168.1.1" "boschrexroth" "boschrexroth" (-1);
   EvDeleteToken "192.168.1.1" (Some "Bearer") (Some "token-1") (-1);
   EvNow] ++ login_events.

(** ** Predicates of the further properties *)

Definition is_deleteToken_call (e : event) : bool :=
  match e with
  | EvDeleteToken _ _ _ _ => true
  | _ => false
  end.

Definition deleteToken_calls (w : trace) : nat :=
  length (filter is_deleteToken_call w).

(** The device accepts every login: it answers [_authenticate] with a token
    and a token type, and the token decodes to an object. *)
Definition logins_succeed (env : Env) : Prop :=
  forall w, exists access token_t exp iat,
    authenticate_reply env w = AuthData access token_t /\
    truthy access = true /\ truthy token_t = true /\
    parseJwt env (string_of access) = ParseReturns (Payload exp iat).

(** The device accepts every login with a token that lives less than the
    thirty seconds the instance takes off. *)
Definition tokens_short_lived (env : Env) : Prop :=
  forall w, exists access token_t exp iat,
    authenticate_reply env w = AuthData access token_t /\
    truthy access = true /\ truthy token_t = true /\
    parseJwt env (string_of access) =
      ParseReturns (Payload (Some exp) (Some iat)) /\
    exp - iat < 30.

(** Two readings of the clock in a row do not go back in time. *)
Definition clock_monotone (env : Env) : Prop :=
  forall w, Date_now env w <= Date_now env (EvNow :: w).

(** A device that issues tokens without claims and answers every call. *)
Definition env_no_claims : Env :=
  {| authenticate_reply := issue_token;
     deleteToken_reply := fun _ => None;
     datalayer_reply := fun _ => DlOk (VNum 5);
     Date_now := fun _ => 1000;
     parseJwt := fun _ => ParseReturns (Payload None None) |}.

(** A device whose tokens live ten seconds. *)
Definition env_short_lived : Env :=
  {| authenticate_reply := issue_token;
     deleteToken_reply := fun _ => None;
     datalayer_reply := fun _ => DlOk (VNum 5);
     Date_now := fun w => 4000000 + Z.of_nat (length w);
     parseJwt := fun _ => ParseReturns (Payload (Some 10) (Some 0)) |}.

(** A device that accepts every login and whose data layer answers 401 to
    every call. *)
Definition env_always_unauthorized : Env :=
  device_env issue_token (fun _ => DlError unauthorized_error VNull) 1000.

(** The device is unreachable and the clock reads past the expiry of the
    first token. *)
Definition env_unreachable_late : Env :=
  device_env (fun _ => AuthError (HttpError "connect ECONNREFUSED"))
    (fun _ => DlError (HttpError "connect ECONNREFUSED") VUndefined) 4000000.

(** The device answers the authentication with status 201 and the body
    [null]. *)
Definition env_null_body : Env :=
  device_env (fun _ => AuthNull) (fun _ => DlOk VNull) 1000.

(** The call [e] goes to the host of the instance [c], with its timeout
    and, for a login, its user name and password; a reading of the clock goes
    nowhere. *)
Definition sent_to (c : CtrlxCore) (e : event) : Prop :=
  match e with
  | EvAuthenticate hostname username password timeout =>
    hostname = _hostname c /\ username = _username c /\
    password = _password c /\ timeout = _timeout c
  | EvDeleteToken hostname _ _ timeout
  | EvRead hostname _ _ _ _ _ timeout
  | EvWrite hostname _ _ _ _ timeout
  | EvCreate hostname _ _ _ _ timeout
  | EvDelete hostname _ _ _ timeout =>
    hostname = _hostname c /\ timeout = _timeout c
  | EvNow => True
  end.

(** ** Strings *)

(** The methods of JavaScript strings the code calls.  A string is the list
    of its characters; an index and a length count characters. *)
Module JS.

(** [s.split(separator)] for a separator of one character. *)
Fixpoint split (separator : ascii) (s : string) : list string :=
  match s with
  | EmptyString => [EmptyString]
  | String ch rest =>
    if Ascii.eqb ch separator then EmptyString :: split separator rest
    else
      match split separator rest with
      | segment :: segments => String ch segment :: segments
      | [] => [String ch EmptyString]
      end
  end.

(** [s.replace(/pattern/g, replacement)] for a pattern and a replacement of
    one character. *)
Fixpoint replace_all (pattern replacement : ascii) (s : string) : string :=
  match s with
  | EmptyString => EmptyString
  | String ch rest =>
    String (if Ascii.eqb ch pattern then replacement else ch)
      (replace_all pattern replacement rest)
  end.

(** [n.toString(16)] for a natural number. *)
Definition toString16 (n : N) : string :=
  NilZero.string_of_uint (N.to_hex_uint n).

Fixpoint drop (n : nat) (s : string) : string :=
  match n, s with
  | O, _ => s
  | S _, EmptyString => EmptyString
  | S n', String _ rest => drop n' rest
  end.

(** [s.slice(start)]: a negative [start] counts from the end. *)
Definition slice (start : Z) (s : string) : string :=
  let len := Z.of_nat (String.length s) in
  let from := if start <? 0 then Z.max (len + start) 0 else Z.min start len in
  drop (Z.to_nat from) s.

(** [s.substr(start)]: a negative [start] counts from the end. *)
Definition substr (start : Z) (s : string) : string :=
  let len := Z.of_nat (String.length s) in
  let from := if start <? 0 then Z.max (len + start) 0 else Z.min start len in
  drop (Z.to_nat from) s.

(** [s.indexOf(ch)]: the index of the first [ch], or -1. *)
Fixpoint indexOf (s : string) (ch : ascii) : Z :=
  match s with
  | EmptyString => -1
  | String first rest =>
    if Ascii.eqb first ch then 0
    else
      let found := indexOf rest ch in
      if found <? 0 then -1 else found + 1
  end.

(** [ch] occurs in [s]. *)
Fixpoint contains (ch : ascii) (s : string) : bool :=
  match s with
  | EmptyString => false
  | String first rest => Ascii.eqb first ch || contains ch rest
  end.

End JS.

(** ** _parseJwt *)

(** A call that returns or throws. *)
Inductive completion (A : Type) : Type :=
| Normal (result : A)
| Throw (err : error).
Arguments Normal {A} result.
Arguments Throw {A} err.

(** [base64Url.replace(/-/g, '+').replace(/_/g, '/')] *)
Definition base64_of_base64Url (base64Url : string) : string :=
  JS.replace_all "_" "/" (JS.replace_all "-" "+" base64Url).

(** ['%' + ('00' + c.charCodeAt(0).toString(16)).slice(-2)] for a character
    [c] of the binary string [atob] returns. *)
Definition percent_encode (c : ascii) : string :=
  "%" ++ JS.slice (-2) ("00" ++ JS.toString16 (N_of_ascii c)).

(** [binary.split('').map(...).join('')] *)
Fixpoint percent_encode_all (binary : string) : string :=
  match binary with
  | EmptyString => EmptyString
  | String c rest => percent_encode c ++ percent_encode_all rest
  end.

Section ParseJwt.

(** The functions of the platform [_parseJwt] calls. *)
Variable atob : string -> completion string.
Variable decodeURIComponent : string -> completion string.
Variable JSON_parse : string -> parse_result.

Definition _parseJwt (token : string) : parse_result :=
  match nth_error (JS.split "." token) 1 with
  | None =>
    ParseThrows (Thrown "TypeError: Cannot read properties of undefined")
  | Some base64Url =>
    let base64 := base64_of_base64Url base64Url in
    match atob base64 with
    | Throw err => ParseThrows err
    | Normal binary =>
      match decodeURIComponent (percent_encode_all binary) with
      | Throw err => ParseThrows err
      | Normal jsonPayload => JSON_parse jsonPayload
      end
    end
  end.

End ParseJwt.

(** The value of a lowercase hexadecimal digit, from its character code. *)
Definition hex_value (digit : ascii) : option N :=
  let code := N_of_ascii digit in
  if ((48 <=? code) && (code <=? 57))%N then Some (code - 48)%N
  else if ((97 <=? code) && (code <=? 102))%N then Some (code - 87)%N
  else None.

(** Reading back what [percent_encode_all] wrote. *)
Fixpoint percent_decode_all (s : string) : option string :=
  match s with
  | EmptyString => Some EmptyString
  | String "%" (String high (String low rest)) =>
    match hex_value high, hex_value low, percent_decode_all rest with
    | Some h, Some l, Some decoded =>
      Some (String (ascii_of_N (16 * h + l)) decoded)
    | _, _, _ => None
    end
  | _ => None
  end.

(** A device whose tokens [_parseJwt] decodes, with a platform that decodes
    nothing. *)
Definition env_parsing (access : string) : Env :=
  {| authenticate_reply := fun _ => AuthData (Some access) (Some "Bearer");
     deleteToken_reply := fun _ => None;
     datalayer_reply := fun _ => DlOk VNull;
     Date_now := fun _ => 1000;
     parseJwt :=
       _parseJwt (fun s => Normal s) (fun s => Normal s)
         (fun _ => ParseReturns (Payload (Some 3600) (Some 0))) |}.

(** ** The editor of the request node ([ctrlx-datalayer-request.html]) *)

Module Editor.

(** The properties of the node the editor reads; [None] is [undefined]. *)
Record node : Type := {
  name : option string;
  path : option string;
  method : option string
}.

(** The label of the node in the flow. *)
Definition generateName (node : node) : string :=
  if truthy (name node) then string_of (name node)
  else if truthy (path node) && truthy (method node) then
    if (String.length (string_of (path node)) <? 50)%nat then
      string_of (method node) ++ ": " ++ string_of (path node)
    else
      let shortPath :=
        JS.substr (Z.of_nat (String.length (string_of (path node))) - 45)
          (string_of (path node)) in
      let shortPathStart := Z.max (JS.indexOf shortPath "/") 0 in
      string_of (method node) ++ ": ..." ++ JS.substr shortPathStart shortPath
  else if truthy (method node) && negb (truthy (path node)) then
    string_of (method node) ++ ": <msg.path>"
  else "Data Layer Request".

(** The id of the tree item for the name [val] browsed under the item [id]:
    [(this.id) ? this.id + '/' + val : val]. *)
Definition child_id (id val : string) : string :=
  if (id =? "")%string then val else id ++ "/" ++ val.

(** The ids of the items made for the names a browse returned. *)
Definition children (id : string) (result : list string) : list string :=
  map (child_id id) result.

(** The id of the item reached from the root item, whose id is empty, by
    opening one name after the other. *)
Definition descend (names : list string) : string :=
  fold_left child_id names "".

End Editor.

Definition long_path_node : Editor.node :=
  {| Editor.name := Some "";
     Editor.path :=
       Some "framework/metrics/system/cpu-utilisation-percent";
     Editor.method := Some "READ" |}.

Definition deep_path_node : Editor.node :=
  {| Editor.name := None;
     Editor.path :=
       Some "framework/bundles/com_boschrexroth_comm_datalayer/active";
     Editor.method := Some "READ" |}.

(** * Proofs *)

(** ** The methods and their common shape *)

Lemma after_logIn_ext {A B : Type}
    (login : option (outcome A * CtrlxCore * trace))
    (f g : CtrlxCore -> trace -> option (outcome B * CtrlxCore * trace)) :
  (forall c w, f c w = g c w) -> after_logIn login f = after_logIn login g.
Proof.
  intros Hfg. destruct login as [[[[d | err |] c1] w1] | ]; simpl; auto.
Qed.

Lemma call_invoke fuel env op c w :
  call fuel env op c w = invoke fuel env op c w.
Proof.
  revert op c w.
  induction fuel as [| fuel IH]; intros op c w.
  - destruct op; reflexivity.
  - destruct op; unfold call, datalayerReadMetadata, datalayerBrowse;
      cbn [datalayerRead datalayerWrite datalayerCreate datalayerDelete
           invoke not_authenticated transport_call retried resolved_with];
      (destruct (negb (is_logged_in (_state c))); [reflexivity |]);
      (destruct (number_gt _ _);
       [apply after_logIn_ext; intros c1 w1;
        match goal with
        | |- _ = invoke _ _ ?o _ _ => apply (IH o)
        end |]);
      (destruct (datalayer_reply env _) as [err returned | returned];
       [| reflexivity]);
      (destruct (status_is_401 err && _autoReconnect c); [| reflexivity]);
      f_equal; apply after_logIn_ext; intros c1 w1;
      match goal with
      | |- _ = invoke _ _ ?o _ _ => apply (IH o)
      end.
Qed.

Lemma after_logIn_inv {A B : Type}
    (login : option (outcome A * CtrlxCore * trace))
    (retry : CtrlxCore -> trace -> option (outcome B * CtrlxCore * trace))
    r c' w' :
  after_logIn login retry = Some (r, c', w') ->
  (exists err, login = Some (Rejected err, c', w') /\ r = Rejected err) \/
  (exists d c1 w1, login = Some (Resolved d, c1, w1) /\
                   retry c1 w1 = Some (r, c', w')) \/
  (login = Some (Pending, c', w') /\ r = Pending).
Proof.
  destruct login as [[[[d | err |] c1] w1] | ]; cbn [after_logIn]; intros H.
  - right. left. eauto.
  - left. inversion H; subst. eauto.
  - right. right. inversion H; subst. eauto.
  - discriminate.
Qed.

Lemma finally_logged_in_inv {B : Type}
    (settled : option (outcome B * CtrlxCore * trace)) r c' w' :
  finally_logged_in settled = Some (r, c', w') ->
  exists c1, settled = Some (r, c1, w') /\ c' = after_finally r c1.
Proof.
  destruct settled as [[[[d | err |] c1] w1] | ]; cbn [finally_logged_in];
    intros H; inversion H; subst; eauto.
Qed.

Lemma invoke_logged_in fuel env op c w :
  _state c = STATE_LOGGED_IN ->
  invoke (S fuel) env op c w =
  if number_gt (Num (Date_now env (EvNow :: w))) (_token_expireTime c) then
    after_logIn (logIn fuel env c (EvNow :: w)) (invoke fuel env op)
  else
    match datalayer_reply env (transport_call c op :: EvNow :: w) with
    | DlError err returned =>
      if status_is_401 err && _autoReconnect c then
        finally_logged_in
          (after_logIn (logIn fuel env c (transport_call c op :: EvNow :: w))
             (invoke fuel env (retried op returned)))
      else Some (Rejected err, c, transport_call c op :: EvNow :: w)
    | DlOk returned =>
      Some (Resolved (resolved_with op returned), c,
            transport_call c op :: EvNow :: w)
    end.
Proof.
  intros Hst. cbn [invoke]. rewrite Hst. reflexivity.
Qed.

(** ** logOut and logIn *)

Lemma logOut_eq env c w :
  logOut env c w =
  (match deleteToken_reply env
           (EvDeleteToken (_hostname c) (_tokenType c) (_token c) (_timeout c)
              :: w) with
   | Some err => Rejected err
   | None => Resolved tt
   end,
   invalidate c,
   EvDeleteToken (_hostname c) (_tokenType c) (_token c) (_timeout c) :: w).
Proof.
  unfold logOut. destruct (deleteToken_reply env _); reflexivity.
Qed.


Lemma logIn_logged_out fuel env c w r c' w' :
  _state c = STATE_LOGGED_OUT ->
  logIn (S fuel) env c w = Some (r, c', w') ->
  logIn_post env c w r c' w'.
Proof.
  intros Hst H. unfold logIn_post, logIn_trace. cbn [logIn] in H.
  rewrite Hst in *. cbn [logged_in_or_authenticating] in *.
  fold (authenticate_call c) in H.
  destruct (authenticate_reply env (authenticate_call c :: w))
    as [err | | | access token_t] eqn:Hreply.
  - inversion H; subst. split; [repeat split |].
    repeat split. now apply exchange_fails.
  - inversion H; subst. split; [repeat split |]. repeat split.
  - inversion H; subst. split; [repeat split |]. repeat split.
  - destruct (negb (truthy access) || negb (truthy token_t)) eqn:Hmiss.
    + inversion H; subst. split; [repeat split |].
      repeat split. eapply member_missing; eauto.
    + destruct (parseJwt env (string_of access)) as [err | decoded] eqn:Hjwt.
      * inversion H; subst. split; [repeat split |].
        repeat split. eapply decoding_throws; eauto.
      * destruct decoded as [| exp iat].
        -- inversion H; subst. split; [repeat split |].
           repeat split. eapply payload_is_null; eauto.
        -- inversion H; subst. split; [repeat split |].
           apply orb_false_elim in Hmiss. destruct Hmiss as [Ha Ht].
           apply negb_false_iff in Ha, Ht.
           exists exp, iat. cbn. repeat split; auto.
Qed.

Lemma logIn_post_holds fuel env c w r c' w' :
  logIn fuel env c w = Some (r, c', w') -> logIn_post env c w r c' w'.
Proof.
  destruct fuel as [| fuel]; [discriminate |].
  destruct (logged_in_or_authenticating (_state c)) eqn:Hguard.
  - cbn [logIn]. rewrite Hguard, logOut_eq.
    destruct fuel as [| fuel]; [discriminate |].
    intros H. apply logIn_logged_out in H; [| reflexivity].
    unfold logIn_post, logIn_trace in *. rewrite Hguard.
    cbn [logged_in_or_authenticating invalidate set_state _state] in H.
    exact H.
  - intros H. apply logIn_logged_out in H; [exact H |].
    destruct (_state c); try discriminate; reflexivity.
Qed.

(** The recursion of [logIn] comes to an end, with a promise that has
    settled or one that stays pending: two levels are enough, because the
    instance is logged out after [logOut]. *)
Lemma logIn_terminates fuel env c w :
  (2 <= fuel)%nat -> exists res, logIn fuel env c w = Some res.
Proof.
  intros Hfuel.
  destruct fuel as [| [| fuel]]; try lia.
  destruct (logged_in_or_authenticating (_state c)) eqn:Hguard.
  - cbn [logIn]. rewrite Hguard, logOut_eq.
    cbn [logIn invalidate set_state _state logged_in_or_authenticating].
    destruct (authenticate_reply env _); [eauto | eauto | eauto |].
    destruct (_ || _); [eauto |].
    destruct (parseJwt env _) as [| []]; eauto.
  - cbn [logIn]. rewrite Hguard.
    destruct (authenticate_reply env _); [eauto | eauto | eauto |].
    destruct (_ || _); [eauto |].
    destruct (parseJwt env _) as [| []]; eauto.
Qed.

(** More fuel does not change what [logIn] ends with. *)
Lemma logIn_fuel fuel env c w :
  (2 <= fuel)%nat -> logIn fuel env c w = logIn 2 env c w.
Proof.
  intros Hfuel.
  destruct fuel as [| [| fuel]]; try lia.
  destruct (logged_in_or_authenticating (_state c)) eqn:Hguard.
  - cbn [logIn]. rewrite Hguard, logOut_eq.
    cbn [logIn invalidate set_state _state logged_in_or_authenticating].
    reflexivity.
  - cbn [logIn]. rewrite Hguard. reflexivity.
Qed.

Lemma login_failure_fun env w err1 err2 :
  login_failure env w err1 -> login_failure env w err2 -> err1 = err2.
Proof.
  intros H1 H2.
  destruct H1 as [e1 R1 | a1 t1 R1 M1 | a1 t1 e1 R1 M1 P1 | a1 t1 R1 M1 P1];
    destruct H2 as [e2 R2 | a2 t2 R2 M2 | a2 t2 e2 R2 M2 P2 | a2 t2 R2 M2 P2];
    rewrite R1 in R2; inversion R2; subst; try congruence.
Qed.

Lemma login_failure_not_success env w err w' d c' :
  login_failure env w err -> login_success env w w' d c' -> False.
Proof.
  intros Hf (exp & iat & R & Ha & Ht & P & _).
  assert (M : negb (truthy (access_token d)) || negb (truthy (token_type d))
              = false) by (rewrite Ha, Ht; reflexivity).
  destruct Hf as [e1 R1 | a1 t1 R1 M1 | a1 t1 e1 R1 M1 P1 | a1 t1 R1 M1 P1];
    rewrite R in R1; inversion R1; subst; congruence.
Qed.



Lemma logIn_same_config fuel env c w r c' w' :
  logIn fuel env c w = Some (r, c', w') -> same_config c c'.
Proof.
  intros H. apply logIn_post_holds in H. now destruct H.
Qed.

(** The trace after a [logIn], by its outcome. *)
Lemma logIn_trace_eq fuel env c w r c' w' :
  logIn fuel env c w = Some (r, c', w') ->
  w' = match r with
       | Resolved _ => EvNow :: authenticate_call c :: logIn_trace c w
       | _ => authenticate_call c :: logIn_trace c w
       end.
Proof.
  intros H. apply logIn_post_holds in H. destruct H as [_ H].
  destruct r as [d | err |].
  - now destruct H as (exp & iat & _ & _ & _ & _ & _ & -> & _).
  - now destruct H as (_ & _ & -> & _).
  - now destruct H as (_ & -> & _).
Qed.

Lemma logIn_trace_grows fuel env c w r c' w' :
  logIn fuel env c w = Some (r, c', w') -> extends w' w.
Proof.
  intros H. apply logIn_trace_eq in H. subst w'. unfold logIn_trace.
  destruct r as [d | err |];
    destruct (logged_in_or_authenticating (_state c));
    first
      [ now exists [EvNow; authenticate_call c;
                    EvDeleteToken (_hostname c) (_tokenType c) (_token c)
                      (_timeout c)]
      | now exists [EvNow; authenticate_call c]
      | now exists [authenticate_call c;
                    EvDeleteToken (_hostname c) (_tokenType c) (_token c)
                      (_timeout c)]
      | now exists [authenticate_call c] ].
Qed.

Lemma transport_calls_logIn fuel env c w r c' w' :
  logIn fuel env c w = Some (r, c', w') ->
  transport_calls w' = transport_calls w.
Proof.
  intros H. apply logIn_trace_eq in H. subst w'. unfold logIn_trace.
  destruct r as [d | err |];
    destruct (logged_in_or_authenticating (_state c)); reflexivity.
Qed.

(** ** Inductions over the data-layer methods *)

Lemma is_logged_in_true s : is_logged_in s = true -> s = STATE_LOGGED_IN.
Proof. destruct s; simpl; congruence. Qed.

(** Every call that ends went one of the nine ways. *)
Lemma invoke_inv fuel env op c w r c' w' :
  invoke (S fuel) env op c w = Some (r, c', w') ->
  invoke_step fuel env op c w r c' w'.
Proof.
  intros H.
  destruct (is_logged_in (_state c)) eqn:Hin.
  - apply is_logged_in_true in Hin.
    rewrite (invoke_logged_in _ _ _ _ _ Hin) in H.
    destruct (number_gt _ _) eqn:Hexpired.
    + apply after_logIn_inv in H.
      destruct H as [(err & Hl & ->) | [(d & c1 & w1 & Hl & Hr) | (Hl & ->)]].
      * eapply renewal_failed; eauto.
      * eapply renewed; eauto.
      * eapply renewal_pending; eauto.
    + destruct (datalayer_reply env _) as [err returned | returned] eqn:Hreply.
      * destruct (status_is_401 err && _autoReconnect c) eqn:Hauto.
        -- apply finally_logged_in_inv in H. destruct H as (c2 & H & ->).
           apply after_logIn_inv in H.
           destruct H as [(err' & Hl & ->)
                         | [(d & c1 & w1 & Hl & Hr) | (Hl & ->)]].
           ++ eapply reconnect_failed; eauto.
           ++ eapply reconnected; eauto.
           ++ eapply reconnect_pending; eauto.
        -- inversion H; subst. eapply failed; eauto.
      * inversion H; subst. eapply answered; eauto.
  - cbn [invoke] in H. rewrite Hin in H. cbn [negb] in H.
    inversion H; subst. now apply not_logged_in.
Qed.

Lemma extends_refl (w : trace) : extends w w.
Proof. now exists []. Qed.

Lemma extends_trans (w1 w2 w3 : trace) :
  extends w2 w1 -> extends w3 w2 -> extends w3 w1.
Proof.
  intros [l1 ->] [l2 ->]. exists (l2 ++ l1). now rewrite app_assoc.
Qed.

Lemma extends_cons (e : event) (w1 w2 : trace) :
  extends w2 (e :: w1) -> extends w2 w1.
Proof.
  intros [l ->]. exists (l ++ [e]). now rewrite <- app_assoc.
Qed.

Ltac invoke_cases H :=
  destruct (invoke_inv _ _ _ _ _ _ _ _ H)
    as [ Hin Hr Hc' Hw'
       | err Hst Hexpired Hlogin Hr
       | d c1 w1 Hst Hexpired Hlogin Hretry
       | returned Hst Hexpired Hreply Hr Hc' Hw'
       | err returned Hst Hexpired Hreply Hauto Hr Hc' Hw'
       | err returned err' c1 Hst Hexpired Hreply Hauto Hlogin Hr Hc'
       | err returned d c1 w1 c2 Hst Hexpired Hreply Hauto Hlogin Hretry Hc'
       | Hst Hexpired Hlogin Hr
       | err returned Hst Hexpired Hreply Hauto Hlogin Hr ].

Lemma invoke_trace_grows fuel env op c w r c' w' :
  invoke fuel env op c w = Some (r, c', w') -> extends w' w.
Proof.
  revert op c w r c' w'.
  induction fuel as [| fuel IH]; intros op c w r c' w' H; [discriminate |].
  invoke_cases H; subst.
  - apply extends_refl.
  - apply extends_cons with (e := EvNow).
    eapply logIn_trace_grows; eauto.
  - apply extends_cons with (e := EvNow).
    eapply extends_trans; [eapply logIn_trace_grows | eapply IH]; eauto.
  - now exists [transport_call c op; EvNow].
  - now exists [transport_call c op; EvNow].
  - apply extends_cons with (e := EvNow).
    apply extends_cons with (e := transport_call c op).
    eapply logIn_trace_grows; eauto.
  - apply extends_cons with (e := EvNow).
    apply extends_cons with (e := transport_call c op).
    eapply extends_trans; [eapply logIn_trace_grows | eapply IH]; eauto.
  - apply extends_cons with (e := EvNow).
    eapply logIn_trace_grows; eauto.
  - apply extends_cons with (e := EvNow).
    apply extends_cons with (e := transport_call c op).
    eapply logIn_trace_grows; eauto.
Qed.

(** In a call on a logged-in instance whose token has not expired, all that
    follows the transport call extends the trace it heads. *)
Lemma invoke_after_transport_call fuel env op c w r c' w' :
  _state c = STATE_LOGGED_IN ->
  number_gt (Num (Date_now env (EvNow :: w))) (_token_expireTime c) = false ->
  invoke (S fuel) env op c w = Some (r, c', w') ->
  extends w' (transport_call c op :: EvNow :: w).
Proof.
  intros Hlogged Hfresh H.
  invoke_cases H; subst; try congruence.
  - rewrite Hlogged in Hin. discriminate.
  - apply extends_refl.
  - apply extends_refl.
  - eapply logIn_trace_grows; eauto.
  - eapply extends_trans;
      [eapply logIn_trace_grows | eapply invoke_trace_grows]; eauto.
  - eapply logIn_trace_grows; eauto.
Qed.




(** A login or a call that stays pending leaves [STATE_AUTHENTICATING]. *)
Lemma logIn_pending_state fuel env c w c' w' :
  logIn fuel env c w = Some (Pending, c', w') ->
  _state c' = STATE_AUTHENTICATING.
Proof.
  intros H. apply logIn_post_holds in H. destruct H as [_ (_ & _ & ->)].
  reflexivity.
Qed.

Lemma login_failure_calls_back env w err :
  login_failure env w err -> leaves_pending (authenticate_reply env w) = false.
Proof.
  intros [e R | a t R _ | a t e R _ _ | a t R _ _]; now rewrite R.
Qed.

(** [logIn] stays pending exactly on the replies of [leaves_pending]. *)
Lemma logIn_pending_reply fuel env c w r c' w' :
  logIn fuel env c w = Some (r, c', w') ->
  (r = Pending <->
   leaves_pending
     (authenticate_reply env (authenticate_call c :: logIn_trace c w)) = true).
Proof.
  intros H. apply logIn_post_holds in H. destruct H as [_ H].
  destruct r as [d | err |].
  - destruct H as (exp & iat & R & _). rewrite R.
    split; discriminate.
  - destruct H as (_ & _ & _ & Hfail).
    rewrite (login_failure_calls_back _ _ _ Hfail). split; discriminate.
  - destruct H as (R & _). now split.
Qed.

Lemma logIn_stays_pending fuel env c w :
  (2 <= fuel)%nat ->
  leaves_pending
    (authenticate_reply env (authenticate_call c :: logIn_trace c w)) = true ->
  logIn fuel env c w =
  Some (Pending,
        set_state STATE_AUTHENTICATING
          (if logged_in_or_authenticating (_state c) then invalidate c
           else c),
        authenticate_call c :: logIn_trace c w).
Proof.
  intros Hfuel Hreply.
  destruct (logIn_terminates fuel env c w Hfuel) as [[[r c'] w'] H].
  pose proof (proj2 (logIn_pending_reply _ _ _ _ _ _ _ H) Hreply) as ->.
  pose proof (logIn_post_holds _ _ _ _ _ _ _ H) as [_ (_ & -> & ->)].
  exact H.
Qed.

Lemma invoke_pending_state fuel env op c w c' w' :
  invoke fuel env op c w = Some (Pending, c', w') ->
  _state c' = STATE_AUTHENTICATING.
Proof.
  revert op c w c' w'.
  induction fuel as [| fuel IH]; intros op c w c' w' H; [discriminate |].
  remember Pending as r eqn:Er in H.
  invoke_cases H; subst; try discriminate;
    try (eapply logIn_pending_state; eauto; fail).
  - eapply IH; eauto.
  - cbn [after_finally]. eapply IH; eauto.
Qed.

(** ** The scenarios, evaluated *)

Example logIn_fresh_instance :
  logIn 1 env_login_once fresh_instance [] =
  Some (Resolved
          {| access_token := Some "token-1"; token_type := Some "Bearer";
             token_decoded := Payload (Some 3600) (Some 0);
             token_expireTime := Num 3571000 |},
        logged_in_instance false, login_events).
Proof. vm_compute. reflexivity. Qed.

(** The read is answered 401, the login that follows fails, and the state is
    set to [STATE_LOGGED_IN] all the same. *)
Example failed_reconnect :
  call 3 env_login_once (Read "a/b/c" VUndefined "data")
    (set_autoReconnect true (logged_in_instance false)) login_events =
  Some (Rejected (HttpError "connect ECONNREFUSED"),
        set_state STATE_LOGGED_IN (invalidate (logged_in_instance true)),
        [EvAuthenticate "192.168.1.1" "boschrexroth" "boschrexroth" (-1);
         EvDeleteToken "192.168.1.1" (Some "Bearer") (Some "token-1") (-1);
         EvRead "192.168.1.1" (Some "Bearer") (Some "token-1") "a/b/c"
           VUndefined "data" (-1);
         EvNow] ++ login_events).
Proof. vm_compute. reflexivity. Qed.

(** The write is answered 401, the instance logs in and writes again; that
    retry is answered 401 as well, and the instance logs in and writes a
    third time. *)
Example chained_reconnect :
  call 4 env_unauthorized_twice (Write "a/b/c" (VNum 7))
    (logged_in_instance true) login_events =
  Some (Resolved (VNum 5),
        set_token (Some "token-3") (logged_in_instance true),
        [EvWrite "192.168.1.1" (Some "Bearer") (Some "token-3") "a/b/c"
           (VNum 7) (-1);
         EvNow; EvNow;
         EvAuthenticate "192.168.1.1" "boschrexroth" "boschrexroth" (-1);
         EvDeleteToken "192.168.1.1" (Some "Bearer") (Some "token-2") (-1);
         EvWrite "192.168.1.1" (Some "Bearer") (Some "token-2") "a/b/c"
           (VNum 7) (-1);
         EvNow; EvNow;
         EvAuthenticate "192.168.1.1" "boschrexroth" "boschrexroth" (-1);
         EvDeleteToken "192.168.1.1" (Some "Bearer") (Some "token-1") (-1);
         EvWrite "192.168.1.1" (Some "Bearer") (Some "token-1") "a/b/c"
           (VNum 7) (-1);
         EvNow] ++ login_events).
Proof. vm_compute. reflexivity. Qed.

Example logIn_renews :
  logIn 2 (env_answering 4000000) (logged_in_instance false)
    (EvNow :: login_events) =
  Some (Resolved
          {| access_token := Some "token-2"; token_type := Some "Bearer";
             token_decoded := Payload (Some 3600) (Some 0);
             token_expireTime := Num 7570000 |},
        renewed_instance, renewal_events).
Proof. vm_compute. reflexivity. Qed.

(** With the same device a create (which sends its data again) succeeds
    after one reconnect. *)
Example create_retry_keeps_data :
  call 3 env_unauthorized_once (Create "test/add" add_arguments)
    (logged_in_instance true) login_events =
  Some (Resolved VNull,
        set_token (Some "token-2") (logged_in_instance true),
        [EvCreate "192.168.1.1" (Some "Bearer") (Some "token-2") "test/add"
           add_arguments (-1);
         EvNow; EvNow;
         EvAuthenticate "192.168.1.1" "boschrexroth" "boschrexroth" (-1);
         EvDeleteToken "192.168.1.1" (Some "Bearer") (Some "token-1") (-1);
         EvCreate "192.168.1.1" (Some "Bearer") (Some "token-1") "test/add"
           add_arguments (-1);
         EvNow] ++ login_events).
Proof. vm_compute. reflexivity. Qed.

(** * The claims *)

(** ** The token fields (C1) *)















(** ** Reconnect on 401 (C2, C3) *)

(** C2, counterexample: [autoReconnect] is on and the transport answers 401
    to the first two writes.  The retry itself is answered 401, yet the call
    does not end there: it logs in a second time, writes a third time and
    resolves. *)
Lemma single_retry_counterexample :
  ~ single_retry_claim 4 env_unauthorized_twice (Write "a/b/c" (VNum 7))
      (logged_in_instance true) login_events.
Proof.
  intros Hclaim.
  destruct (Hclaim _ _ _ chained_reconnect) as [Htransport _].
  vm_compute in Htransport. lia.
Qed.

(** C2, as amended: on a logged-in instance whose token has not expired, an
    error of the transport call that is not a 401, or any error while
    [autoReconnect] is off, rejects the call with that error, leaves the
    instance as it was and adds nothing to the trace but the clock reading
    and the transport call.  A 401 with [autoReconnect] on makes the method
    log in once; if that login fails the call is rejected with the login's
    error and nothing is retried; if it succeeds the method is called again
    as a whole, so that a further 401 reconnects again.  Either way the
    state is [STATE_LOGGED_IN] once the call has settled; a call that stays
    pending, in a login that never calls back, leaves
    [STATE_AUTHENTICATING]. *)
Theorem reconnect_rule fuel env op c w err returned :
  _state c = STATE_LOGGED_IN ->
  number_gt (Num (Date_now env (EvNow :: w))) (_token_expireTime c) = false ->
  datalayer_reply env (transport_call c op :: EvNow :: w) =
    DlError err returned ->
  let w2 := transport_call c op :: EvNow :: w in
  (status_is_401 err && _autoReconnect c = false ->
   call (S fuel) env op c w = Some (Rejected err, c, w2)) /\
  (status_is_401 err && _autoReconnect c = true ->
   (forall err' c1 w3,
      logIn fuel env c w2 = Some (Rejected err', c1, w3) ->
      call (S fuel) env op c w =
        Some (Rejected err', set_state STATE_LOGGED_IN c1, w3) /\
      transport_calls w3 = S (transport_calls w)) /\
   (forall d c1 w3,
      logIn fuel env c w2 = Some (Resolved d, c1, w3) ->
      call (S fuel) env op c w =
        finally_logged_in (call fuel env (retried op returned) c1 w3)) /\
   (forall r c' w',
      call (S fuel) env op c w = Some (r, c', w') ->
      _state c' = match r with
                  | Pending => STATE_AUTHENTICATING
                  | _ => STATE_LOGGED_IN
                  end)).
Proof.
  intros Hst Hfresh Hreply w2.
  rewrite call_invoke, (invoke_logged_in _ _ _ _ _ Hst), Hfresh, Hreply.
  fold w2. split.
  - intros ->. reflexivity.
  - intros ->. split; [| split].
    + intros err' c1 w3 Hlogin. rewrite Hlogin. split; [reflexivity |].
      apply logIn_post_holds in Hlogin.
      destruct Hlogin as [_ (_ & _ & -> & _)].
      unfold logIn_trace. rewrite Hst.
      subst w2. destruct op; reflexivity.
    + intros d c1 w3 Hlogin. rewrite Hlogin. cbn [after_logIn].
      now rewrite call_invoke.
    + intros r c' w' H. apply finally_logged_in_inv in H.
      destruct H as (c1 & Hsettled & ->).
      destruct r as [d | err' |]; [reflexivity | reflexivity |].
      cbn [after_finally].
      apply after_logIn_inv in Hsettled.
      destruct Hsettled as [(err' & _ & Hr)
                           | [(d & c2 & w3 & _ & Hretry) | [Hlogin _]]].
      * discriminate.
      * eapply invoke_pending_state; eauto.
      * eapply logIn_pending_state; eauto.
Qed.

(** A delete answered 401: with [autoReconnect] off it is rejected with the
    401 and nothing else happens; with [autoReconnect] on and a device that
    refuses the login it is rejected with the login's error, without a second
    transport call. *)
Lemma reconnect_rule_witness :
  call 1 env_login_once (Delete "a/b/c") (logged_in_instance false)
    login_events =
  Some (Rejected unauthorized_error, logged_in_instance false,
        EvDelete "192.168.1.1" (Some "Bearer") (Some "token-1") "a/b/c" (-1)
          :: EvNow :: login_events) /\
  call 3 env_login_once (Delete "a/b/c") (logged_in_instance true)
    login_events =
  Some (Rejected (HttpError "connect ECONNREFUSED"),
        set_state STATE_LOGGED_IN (invalidate (logged_in_instance true)),
        [EvAuthenticate "192.168.1.1" "boschrexroth" "boschrexroth" (-1);
         EvDeleteToken "192.168.1.1" (Some "Bearer") (Some "token-1") (-1);
         EvDelete "192.168.1.1" (Some "Bearer") (Some "token-1") "a/b/c" (-1);
         EvNow] ++ login_events).
Proof.
  split.
  - exact (proj1 (reconnect_rule 0 env_login_once (Delete "a/b/c")
                    (logged_in_instance false) login_events
                    unauthorized_error VNull eq_refl eq_refl eq_refl)
             eq_refl).
  - exact (proj1 (proj1 (proj2 (reconnect_rule 2 env_login_once
                                  (Delete "a/b/c") (logged_in_instance true)
                                  login_events unauthorized_error VNull
                                  eq_refl eq_refl eq_refl) eq_refl)
                    (HttpError "connect ECONNREFUSED")
                    (invalidate (logged_in_instance true))
                    _ eq_refl)).
Defined.

(** One reconnect: the transport call is answered 401 with [autoReconnect]
    on, the login succeeds, the token it brings has not expired and the
    transport answers the call the method then makes.  The method resolves
    after that one login and that one further transport call, made for
    [retried op returned]. *)
Lemma reconnect_once fuel env op c w err returned d c1 w3 answer :
  _state c = STATE_LOGGED_IN ->
  number_gt (Num (Date_now env (EvNow :: w))) (_token_expireTime c) = false ->
  datalayer_reply env (transport_call c op :: EvNow :: w) =
    DlError err returned ->
  status_is_401 err && _autoReconnect c = true ->
  logIn (S fuel) env c (transport_call c op :: EvNow :: w) =
    Some (Resolved d, c1, w3) ->
  number_gt (Num (Date_now env (EvNow :: w3))) (_token_expireTime c1)
    = false ->
  datalayer_reply env (transport_call c1 (retried op returned) :: EvNow :: w3)
    = DlOk answer ->
  call (S (S fuel)) env op c w =
  Some (Resolved (resolved_with (retried op returned) answer), c1,
        transport_call c1 (retried op returned) :: EvNow :: w3).
Proof.
  intros Hst Hfresh Hreply Hauto Hlogin Hfresh1 Hanswer.
  rewrite call_invoke, (invoke_logged_in _ _ _ _ _ Hst), Hfresh, Hreply,
    Hauto, Hlogin.
  cbn [after_logIn].
  pose proof (logIn_post_holds _ _ _ _ _ _ _ Hlogin) as [_ Hpost].
  destruct Hpost as (exp & iat & _ & _ & _ & _ & _ & _ & _ & _ & _ & Hst1 & _).
  rewrite (invoke_logged_in _ _ _ _ _ Hst1), Hfresh1, Hanswer.
  cbn [finally_logged_in]. do 2 f_equal.
  destruct c1; cbn in *; subst; reflexivity.
Qed.

(** The read calls itself again with the second argument of the callback as
    [data]. *)
Lemma retried_read path data type returned :
  retried (Read path data type) returned = Read path returned type.
Proof. reflexivity. Qed.

(** The other methods call themselves again with the arguments they were
    called with: their callbacks name the second argument [dataReturned]. *)
Lemma retried_same_arguments op returned :
  match op with
  | Read _ _ _ | ReadMetadata _ | Browse _ => True
  | _ => retried op returned = op
  end.
Proof. destruct op; reflexivity. Qed.

(** C3, at the failing input: a read of [test/add] with the arguments
    [{arg1: 17, arg2: 5}], [autoReconnect] on, the first transport call
    answered 401 with [null] as second argument of the callback.  The retry
    reads with [null] in place of the arguments, so a device that would
    answer the same call with the sum rejects the retry as a bad request. *)
Theorem read_retry_loses_data :
  call 3 env_unauthorized_once (Read "test/add" add_arguments "data")
    (logged_in_instance true) login_events =
  Some (Rejected (CtrlxProblemError 400 "Bad Request"),
        set_token (Some "token-2") (logged_in_instance true),
        [EvRead "192.168.1.1" (Some "Bearer") (Some "token-2") "test/add"
           VNull "data" (-1);
         EvNow; EvNow;
         EvAuthenticate "192.168.1.1" "boschrexroth" "boschrexroth" (-1);
         EvDeleteToken "192.168.1.1" (Some "Bearer") (Some "token-1") (-1);
         EvRead "192.168.1.1" (Some "Bearer") (Some "token-1") "test/add"
           add_arguments "data" (-1);
         EvNow] ++ login_events).
Proof. vm_compute. reflexivity. Qed.

(** ** logOut (C4) *)

(** C4: every [logOut], from any state and whatever [_deleteToken] answers,
    leaves the three token fields undefined and the state
    [STATE_LOGGED_OUT]; the promise resolves when the remote call succeeds
    and is rejected with the remote error otherwise.  The call of
    [_deleteToken] is the only thing the method adds to the trace and the
    configuration is untouched. *)
Theorem logOut_always_clears env c w :
  let '(r, c', w') := logOut env c w in
  tokens_absent c' /\
  _state c' = STATE_LOGGED_OUT /\
  same_config c c' /\
  w' = EvDeleteToken (_hostname c) (_tokenType c) (_token c) (_timeout c)
         :: w /\
  r = match deleteToken_reply env w' with
      | Some err => Rejected err
      | None => Resolved tt
      end.
Proof.
  rewrite logOut_eq. repeat split.
Qed.

(** ** The expiry of the token (C5, C6) *)

(** C5, counterexample: the token is issued at 1600000000 and expires an
    hour later; the answer reaches the instance when its clock reads five
    seconds more.  The stored expiry is 3570 seconds after the clock
    reading, not after the issue instant. *)
Lemma expireTime_counterexample :
  exists d c' w',
    logIn 1 env_clock_skew fresh_instance [] = Some (Resolved d, c', w') /\
    token_decoded d = Payload (Some 1600003600) (Some 1600000000) /\
    _token_expireTime c' = Num 1600003575000 /\
    _token_expireTime c' <>
      Num (expireAt_spec 1600000000 1600003600 * 1000) /\
    _token_expireTime c' <> Num (expireAt_spec 1600000000 1600003600).
Proof.
  eexists _, _, _. split; [vm_compute; reflexivity |].
  repeat split; try discriminate.
Qed.

(** C5, as amended: after a successful [logIn] whose decoded token has the
    claims [iat] and [exp], the stored expiry is the local clock reading
    taken right after decoding plus [(exp - iat - 30) * 1000] milliseconds.
    A token with [exp = iat + 3600] expires 3570 seconds after that clock
    reading; the expiry is [iat + 3570] seconds only when the clock reads
    [iat] at that moment. *)
Theorem logIn_expireTime fuel env c w d c' w' exp iat :
  logIn fuel env c w = Some (Resolved d, c', w') ->
  token_decoded d = Payload (Some exp) (Some iat) ->
  _token_decoded c' = Some (Payload (Some exp) (Some iat)) /\
  w' = EvNow :: authenticate_call c :: logIn_trace c w /\
  _token_expireTime c' = Num (Date_now env w' + (exp - iat - 30) * 1000) /\
  token_expireTime d = _token_expireTime c' /\
  (exp = iat + 3600 ->
   _token_expireTime c' = Num (Date_now env w' + 3570 * 1000)) /\
  (Date_now env w' = iat * 1000 ->
   _token_expireTime c' = Num (expireAt_spec iat exp * 1000)).
Proof.
  intros H Hd. apply logIn_post_holds in H.
  destruct H as [_ (exp' & iat' & _ & _ & _ & _ & Hd' & Hw & _ & _ & Hdec & _
                      & Hexp & Hres)].
  rewrite Hd in Hd'. inversion Hd'; subst exp' iat'.
  cbn [to_number number_sub number_mul number_add] in Hexp.
  repeat split; auto.
  - intros ->. rewrite Hexp. f_equal. lia.
  - intros Hnow. rewrite Hexp, Hnow. unfold expireAt_spec. f_equal. lia.
Qed.

(** With a clock that reads the issue instant the expiry is 3570 seconds
    after it. *)
Lemma logIn_expireTime_witness :
  exists d c' w',
    logIn 1 env_clock_exact fresh_instance [] = Some (Resolved d, c', w') /\
    token_decoded d = Payload (Some 1600003600) (Some 1600000000) /\
    _token_expireTime c' = Num (1600000000000 + 3570 * 1000) /\
    _token_expireTime c' =
      Num (expireAt_spec 1600000000 1600003600 * 1000).
Proof.
  eexists _, _, _.
  assert (Hrun : logIn 1 env_clock_exact fresh_instance [] =
                 Some (Resolved
                         {| access_token := Some "token-1";
                            token_type := Some "Bearer";
                            token_decoded :=
                              Payload (Some 1600003600) (Some 1600000000);
                            token_expireTime := Num 1600003570000 |},
                       set_token_decoded
                         (Some (Payload (Some 1600003600) (Some 1600000000)))
                         (set_token_expireTime (Num 1600003570000)
                            (logged_in_instance false)),
                       login_events)).
  { vm_compute. reflexivity. }
  destruct (logIn_expireTime _ _ _ _ _ _ _ _ _ Hrun eq_refl)
    as (_ & _ & _ & _ & Hhour & Hexact).
  split; [exact Hrun |].
  split; [reflexivity |].
  split; [exact (Hhour eq_refl) | exact (Hexact eq_refl)].
Defined.



(** ** A failed logIn (C7) *)

(** The failures that the callback of [logIn] handles: a [logIn] whose
    authentication exchange fails, whose response is an object without the
    token or the token type, or whose token cannot be decoded, is rejected
    with that error, and leaves the token fields undefined and the state
    [STATE_LOGGED_OUT]; and a rejected [logIn] has one of these causes. *)
Lemma logIn_failure_resets fuel env c w :
  (2 <= fuel)%nat ->
  let w1 := authenticate_call c :: logIn_trace c w in
  (forall err, login_failure env w1 err ->
     exists c', logIn fuel env c w = Some (Rejected err, c', w1) /\
       tokens_absent c' /\ _state c' = STATE_LOGGED_OUT /\
       same_config c c') /\
  (forall err c' w', logIn fuel env c w = Some (Rejected err, c', w') ->
     tokens_absent c' /\ _state c' = STATE_LOGGED_OUT /\ w' = w1 /\
     login_failure env w1 err).
Proof.
  intros Hfuel w1. split.
  - intros err Hfail.
    destruct (logIn_terminates fuel env c w Hfuel) as [[[r c'] w'] H].
    pose proof (logIn_post_holds _ _ _ _ _ _ _ H) as [Hcfg Hpost].
    fold w1 in Hpost. destruct r as [d | err' |].
    + exfalso. eapply login_failure_not_success; eauto.
    + destruct Hpost as (Habs & Hst & -> & Hfail').
      rewrite (login_failure_fun _ _ _ _ Hfail Hfail').
      exists c'. auto.
    + destruct Hpost as (Hreply & _).
      rewrite (login_failure_calls_back _ _ _ Hfail) in Hreply.
      discriminate.
  - intros err c' w' H.
    apply logIn_post_holds in H. destruct H as [_ (Habs & Hst & Hw & Hfail)].
    auto.
Qed.

(** A logged-in instance logs in again while the device is unreachable: the
    login is rejected with the connection error and the instance is logged
    out, without token. *)
Lemma logIn_failure_resets_witness :
  exists c',
    logIn 2 env_unreachable (logged_in_instance false) login_events =
    Some (Rejected (HttpError "connect ECONNREFUSED"), c',
          [EvAuthenticate "192.168.1.1" "boschrexroth" "boschrexroth" (-1);
           EvDeleteToken "192.168.1.1" (Some "Bearer") (Some "token-1") (-1)]
          ++ login_events) /\
    tokens_absent c' /\ _state c' = STATE_LOGGED_OUT /\
    same_config (logged_in_instance false) c'.
Proof.
  exact (proj1 (logIn_failure_resets 2 env_unreachable
                  (logged_in_instance false) login_events (le_n 2))
           (HttpError "connect ECONNREFUSED")
           (exchange_fails env_unreachable _ _ eq_refl)).
Defined.

(** C7, at the failing input: the device answers the authentication with
    status 201 and the body [null], a response that lacks the token and the
    token type.  [_authenticate] hands [null] on, the callback of [logIn]
    throws on [data.access_token] before its [try], and the promise is
    neither resolved nor rejected, with whatever fuel: the instance stays in
    [STATE_AUTHENTICATING], not [STATE_LOGGED_OUT], and a data-layer call
    made afterwards is turned away as not authenticated. *)
Theorem logIn_null_body_stays_pending :
  authenticate_reply env_null_body [authenticate_call fresh_instance]
    = AuthNull /\
  (forall fuel,
     logIn (S fuel) env_null_body fresh_instance [] =
     Some (Pending, set_state STATE_AUTHENTICATING fresh_instance,
           [EvAuthenticate "192.168.1.1" "boschrexroth" "boschrexroth"
              (-1)])) /\
  (forall fuel err c' w',
     logIn fuel env_null_body fresh_instance [] <>
     Some (Rejected err, c', w')) /\
  _state (set_state STATE_AUTHENTICATING fresh_instance)
    <> STATE_LOGGED_OUT /\
  (forall fuel,
     call (S fuel) env_null_body (Read "a/b/c" VUndefined "data")
       (set_state STATE_AUTHENTICATING fresh_instance)
       [EvAuthenticate "192.168.1.1" "boschrexroth" "boschrexroth" (-1)] =
     Some (Rejected
             (JsError
                "Failed to read from Data Layer. Not authenticated. Please login first."),
           set_state STATE_AUTHENTICATING fresh_instance,
           [EvAuthenticate "192.168.1.1" "boschrexroth" "boschrexroth"
              (-1)])).
Proof.
  assert (Hrun : forall fuel,
             logIn (S fuel) env_null_body fresh_instance [] =
             Some (Pending, set_state STATE_AUTHENTICATING fresh_instance,
                   [EvAuthenticate "192.168.1.1" "boschrexroth"
                      "boschrexroth" (-1)])).
  { intros fuel. reflexivity. }
  split; [reflexivity |].
  split; [exact Hrun |].
  split; [| split; [discriminate |]].
  - intros [| fuel] err c' w'; [discriminate |].
    rewrite Hrun. discriminate.
  - intros fuel. rewrite call_invoke. reflexivity.
Qed.

(** ** Not logged in (C8) *)

(** C8: a data-layer method called on an instance that is not logged in is
    rejected at once with its "Not authenticated" error: the trace is
    unchanged (no transport call, no login) and so is the instance. *)
Theorem not_logged_in_rejects fuel env op c w :
  _state c <> STATE_LOGGED_IN ->
  call (S fuel) env op c w =
    Some (Rejected (JsError (not_authenticated op)), c, w) /\
  exists what,
    not_authenticated op =
    (what ++ "Not authenticated. Please login first.")%string.
Proof.
  intros Hst. split.
  - rewrite call_invoke. cbn [invoke].
    destruct (_state c); try reflexivity. now elim Hst.
  - destruct op; cbn [not_authenticated];
      first [ now exists "Failed to read from Data Layer. "
            | now exists "Failed to create node on Data Layer. "
            | now exists "Failed to delete node on Data Layer. " ].
Qed.

(** Browsing on a fresh instance. *)
Lemma not_logged_in_rejects_witness :
  _state fresh_instance <> STATE_LOGGED_IN /\
  call 1 env_unreachable (Browse "a/b/c") fresh_instance [] =
  Some (Rejected
          (JsError
             "Failed to read from Data Layer. Not authenticated. Please login first."),
        fresh_instance, []).
Proof.
  assert (Hout : _state fresh_instance <> STATE_LOGGED_IN) by discriminate.
  split; [exact Hout |].
  exact (proj1 (not_logged_in_rejects 0 env_unreachable (Browse "a/b/c")
                  fresh_instance [] Hout)).
Defined.

(** ** Metadata and browse (C9) *)

(** C9: [datalayerReadMetadata(path)] is
    [datalayerRead(path, undefined, 'metadata')] and [datalayerBrowse(path)]
    is [datalayerRead(path, undefined, 'browse')]: same outcome, same
    instance, same calls of the collaborators. *)
Theorem metadata_browse_are_reads fuel env path c w :
  call fuel env (ReadMetadata path) c w =
    call fuel env (Read path VUndefined "metadata") c w /\
  call fuel env (Browse path) c w =
    call fuel env (Read path VUndefined "browse") c w /\
  datalayerReadMetadata fuel env path c w =
    datalayerRead fuel env path VUndefined "metadata" c w /\
  datalayerBrowse fuel env path c w =
    datalayerRead fuel env path VUndefined "browse" c w.
Proof.
  repeat split.
Qed.

(** ** The setters (C10) *)

(** C10: setting [timeout] or [autoReconnect] writes that one field: the
    getter returns the value set (whatever it is, -1 included) and the
    session fields and the rest of the configuration are unchanged. *)
Theorem setters_frame c newTimeout newAutoReconnect :
  (timeout (set_timeout newTimeout c) = newTimeout /\
   same_session c (set_timeout newTimeout c) /\
   _hostname (set_timeout newTimeout c) = _hostname c /\
   _username (set_timeout newTimeout c) = _username c /\
   _password (set_timeout newTimeout c) = _password c /\
   autoReconnect (set_timeout newTimeout c) = autoReconnect c) /\
  (autoReconnect (set_autoReconnect newAutoReconnect c) = newAutoReconnect /\
   same_session c (set_autoReconnect newAutoReconnect c) /\
   _hostname (set_autoReconnect newAutoReconnect c) = _hostname c /\
   _username (set_autoReconnect newAutoReconnect c) = _username c /\
   _password (set_autoReconnect newAutoReconnect c) = _password c /\
   timeout (set_autoReconnect newAutoReconnect c) = timeout c).
Proof.
  repeat split.
Qed.

(** * Further properties *)

(** ** What logIn and logOut do *)

(** X1: a [logIn] that settles never leaves the instance authenticating.
    When it resolves the instance is logged in and holds the token, the token
    type and the decoded token of the object it resolves with, whose
    [token_expireTime] is the stored expiry; when it is rejected the
    instance is logged out.  Only a [logIn] that stays pending leaves the
    instance authenticating. *)
Theorem logIn_settled_state fuel env c w r c' w' :
  logIn fuel env c w = Some (r, c', w') ->
  (r <> Pending -> _state c' <> STATE_AUTHENTICATING) /\
  match r with
  | Resolved d =>
    _state c' = STATE_LOGGED_IN /\
    _token c' = access_token d /\ _tokenType c' = token_type d /\
    _token_decoded c' = Some (token_decoded d) /\
    _token_expireTime c' = token_expireTime d /\
    truthy (_token c') = true /\ truthy (_tokenType c') = true
  | Rejected _ => _state c' = STATE_LOGGED_OUT
  | Pending => _state c' = STATE_AUTHENTICATING
  end.
Proof.
  intros H. apply logIn_post_holds in H. destruct H as [_ H].
  destruct r as [d | err |].
  - destruct H as (exp & iat & _ & Ha & Ht & _ & Hd & _ & Htok & Htt & Hdec
                   & Hst & _ & Hexp).
    rewrite Hst, Htok, Htt, Hdec, Hd, Hexp. repeat split; auto. discriminate.
  - destruct H as (_ & Hst & _). rewrite Hst.
    split; [intros _; discriminate | auto].
  - destruct H as (_ & _ & ->). split; [intros Hr; now elim Hr | reflexivity].
Qed.

Lemma logIn_settled_state_witness :
  _state (logged_in_instance false) <> STATE_AUTHENTICATING /\
  _state (logged_in_instance false) = STATE_LOGGED_IN /\
  _token (logged_in_instance false) = Some "token-1".
Proof.
  destruct (logIn_settled_state _ _ _ _ _ _ _ logIn_fresh_instance)
    as (Hnot & Hin & Htok & _).
  split; [apply Hnot; discriminate | split; assumption].
Defined.

Lemma same_config_trans c1 c2 c3 :
  same_config c1 c2 -> same_config c2 c3 -> same_config c1 c3.
Proof.
  unfold same_config.
  intros (H1 & H2 & H3 & H4 & H5) (K1 & K2 & K3 & K4 & K5).
  repeat split; congruence.
Qed.

(** X2: a [logIn] that settles has called [_authenticate] exactly once and
    the data layer not at all.  On an instance that was logged in or
    authenticating it has first called [_deleteToken], once, with the token
    the instance held; on a logged-out instance it has not called
    [_deleteToken]. *)
Theorem logIn_calls fuel env c w r c' w' :
  logIn fuel env c w = Some (r, c', w') ->
  authenticate_calls w' = S (authenticate_calls w) /\
  transport_calls w' = transport_calls w /\
  (if logged_in_or_authenticating (_state c) then
     deleteToken_calls w' = S (deleteToken_calls w) /\
     extends w'
       (authenticate_call c
        :: EvDeleteToken (_hostname c) (_tokenType c) (_token c) (_timeout c)
        :: w)
   else
     deleteToken_calls w' = deleteToken_calls w /\
     extends w' (authenticate_call c :: w)).
Proof.
  intros H. pose proof (transport_calls_logIn _ _ _ _ _ _ _ H) as Htr.
  apply logIn_post_holds in H. destruct H as [_ H].
  unfold logIn_trace in H.
  assert (Hw : w' = EvNow :: authenticate_call c ::
                 (if logged_in_or_authenticating (_state c)
                  then EvDeleteToken (_hostname c) (_tokenType c) (_token c)
                         (_timeout c) :: w
                  else w) \/
               w' = authenticate_call c ::
                 (if logged_in_or_authenticating (_state c)
                  then EvDeleteToken (_hostname c) (_tokenType c) (_token c)
                         (_timeout c) :: w
                  else w)).
  { destruct r as [d | err |].
    - destruct H as (exp & iat & _ & _ & _ & _ & _ & -> & _). now left.
    - destruct H as (_ & _ & -> & _). now right.
    - destruct H as (_ & -> & _). now right. }
  clear H.
  destruct (logged_in_or_authenticating (_state c));
    destruct Hw as [-> | ->]; repeat split; try reflexivity; try assumption;
    first [ now exists [EvNow] | now exists [] ].
Qed.

Lemma logIn_calls_witness :
  authenticate_calls renewal_events = 2%nat /\
  deleteToken_calls renewal_events = 1%nat /\
  extends renewal_events
    [EvAuthenticate "192.168.1.1" "boschrexroth" "boschrexroth" (-1);
     EvDeleteToken "192.168.1.1" (Some "Bearer") (Some "token-1") (-1);
     EvNow; EvNow;
     EvAuthenticate "192.168.1.1" "boschrexroth" "boschrexroth" (-1)].
Proof.
  destruct (logIn_calls _ _ _ _ _ _ _ logIn_renews)
    as (Hauth & _ & Hdel & Hext).
  repeat split; assumption.
Defined.

(** X3: no data-layer method changes the host name, the user name, the
    password, the timeout or [autoReconnect], however many logins it
    makes. *)
Theorem call_keeps_config fuel env op c w r c' w' :
  call fuel env op c w = Some (r, c', w') -> same_config c c'.
Proof.
  rewrite call_invoke. revert op c w r c' w'.
  induction fuel as [| fuel IH]; intros op c w r c' w' H; [discriminate |].
  invoke_cases H; subst; try (repeat split; fail).
  - eapply logIn_same_config; eauto.
  - eapply same_config_trans; [eapply logIn_same_config | eapply IH]; eauto.
  - apply logIn_same_config in Hlogin. exact Hlogin.
  - apply logIn_same_config in Hlogin. apply IH in Hretry.
    pose proof (same_config_trans _ _ _ Hlogin Hretry) as Hcfg.
    destruct r; exact Hcfg.
  - eapply logIn_same_config; eauto.
  - eapply logIn_same_config; eauto.
Qed.

Lemma call_keeps_config_witness :
  same_config (logged_in_instance true)
    (set_token (Some "token-3") (logged_in_instance true)).
Proof.
  exact (call_keeps_config _ _ _ _ _ _ _ _ chained_reconnect).
Defined.

(** X4: a second [logOut] leaves the instance as the first one left it, and
    still calls [_deleteToken], with an undefined token type and an
    undefined token. *)
Theorem logOut_twice env1 env2 c w :
  let '(_, c1, w1) := logOut env1 c w in
  let '(_, c2, w2) := logOut env2 c1 w1 in
  c2 = c1 /\
  w2 = EvDeleteToken (_hostname c) None None (_timeout c) :: w1.
Proof.
  rewrite logOut_eq. rewrite logOut_eq. split; reflexivity.
Qed.

(** ** The expiry check *)

(** X5: when the decoded token lacks [exp] or [iat], the stored expiry is
    [NaN], and no clock reading is past it: every later data-layer call on
    that instance goes to the transport without renewing the token. *)
Theorem missing_claims_never_expire fuel env c w d c' w' exp iat :
  logIn fuel env c w = Some (Resolved d, c', w') ->
  token_decoded d = Payload exp iat ->
  exp = None \/ iat = None ->
  _token_expireTime c' = NaN /\
  forall fuel2 env2 op w2 r c2 w3,
    call (S fuel2) env2 op c' w2 = Some (r, c2, w3) ->
    extends w3 (transport_call c' op :: EvNow :: w2).
Proof.
  intros H Hd Hmissing. apply logIn_post_holds in H.
  destruct H as [_ (exp' & iat' & _ & _ & _ & _ & Hd' & _ & _ & _ & _ & Hst
                    & Hexp & _)].
  rewrite Hd in Hd'. inversion Hd'; subst exp' iat'.
  assert (Hnan : _token_expireTime c' = NaN).
  { rewrite Hexp. destruct Hmissing as [-> | ->]; [reflexivity |].
    destruct exp; reflexivity. }
  split; [exact Hnan |].
  intros fuel2 env2 op w2 r c2 w3 Hcall. rewrite call_invoke in Hcall.
  eapply invoke_after_transport_call; eauto.
  rewrite Hnan. reflexivity.
Qed.

Example logIn_no_claims :
  logIn 1 env_no_claims fresh_instance [] =
  Some (Resolved
          {| access_token := Some "token-1"; token_type := Some "Bearer";
             token_decoded := Payload None None;
             token_expireTime := NaN |},
        set_token_decoded (Some (Payload None None))
          (set_token_expireTime NaN (logged_in_instance false)),
        login_events).
Proof. vm_compute. reflexivity. Qed.

Lemma missing_claims_never_expire_witness :
  _token_expireTime
    (set_token_decoded (Some (Payload None None))
       (set_token_expireTime NaN (logged_in_instance false))) = NaN.
Proof.
  exact (proj1 (missing_claims_never_expire _ _ _ _ _ _ _ None None
                  logIn_no_claims eq_refl (or_introl eq_refl))).
Defined.

Lemma logIn_not_rejected fuel env c w err c' w' :
  logins_succeed env ->
  logIn fuel env c w = Some (Rejected err, c', w') -> False.
Proof.
  intros Hok H. apply logIn_post_holds in H.
  destruct H as [_ (_ & _ & _ & Hfail)].
  destruct (Hok (authenticate_call c :: logIn_trace c w))
    as (access & token_t & exp & iat & Hreply & Ha & Ht & Hjwt).
  assert (Hmiss : negb (truthy access) || negb (truthy token_t) = false)
    by (rewrite Ha, Ht; reflexivity).
  destruct Hfail as [e1 R1 | a1 t1 R1 M1 | a1 t1 e1 R1 M1 P1 | a1 t1 R1 M1 P1];
    rewrite Hreply in R1; inversion R1; subst; congruence.
Qed.

Lemma logIn_not_pending fuel env c w c' w' :
  logins_succeed env ->
  logIn fuel env c w = Some (Pending, c', w') -> False.
Proof.
  intros Hok H. apply logIn_pending_reply in H.
  destruct (Hok (authenticate_call c :: logIn_trace c w))
    as (access & token_t & exp & iat & Hreply & _).
  rewrite Hreply in H. destruct H as [H _]. specialize (H eq_refl).
  discriminate.
Qed.

Lemma short_lived_succeed env : tokens_short_lived env -> logins_succeed env.
Proof.
  intros H w.
  destruct (H w) as (access & token_t & exp & iat & Hr & Ha & Ht & Hj & _).
  exists access, token_t, (Some exp), (Some iat). auto.
Qed.

(** X6: on a device whose tokens live less than thirty seconds, with a clock
    that does not go back, a data-layer call on a logged-in instance whose
    token has expired never settles: each login brings a token that has
    expired by the next expiry check, which logs in again. *)
Theorem short_lived_tokens_never_settle env op :
  tokens_short_lived env ->
  clock_monotone env ->
  forall fuel c w,
    _state c = STATE_LOGGED_IN ->
    number_gt (Num (Date_now env (EvNow :: w))) (_token_expireTime c)
      = true ->
    call fuel env op c w = None.
Proof.
  intros Hshort Hclock fuel.
  induction fuel as [| fuel IH]; intros c w Hlogged Hexp.
  - destruct op; reflexivity.
  - destruct (call (S fuel) env op c w) as [[[r c'] w'] |] eqn:Hcall;
      [exfalso | reflexivity].
    rewrite call_invoke in Hcall.
    invoke_cases Hcall; try congruence;
      try (rewrite Hlogged in Hin; discriminate).
    + exact (logIn_not_rejected _ _ _ _ _ _ _ (short_lived_succeed _ Hshort)
               Hlogin).
    + rewrite <- call_invoke, IH in Hretry; [discriminate | |].
      * apply logIn_post_holds in Hlogin.
        destruct Hlogin as [_ (exp & iat & _ & _ & _ & _ & _ & _ & _ & _ & _
                               & Hst1 & _)].
        exact Hst1.
      * apply logIn_post_holds in Hlogin.
        destruct Hlogin as [_ (exp & iat & Hreply & _ & _ & Hjwt & _ & Hw1
                               & _ & _ & _ & _ & Hexp1 & _)].
        destruct (Hshort (authenticate_call c :: logIn_trace c (EvNow :: w)))
          as (a & t & exp' & iat' & Hreply' & _ & _ & Hjwt' & Hlife).
        rewrite Hreply in Hreply'. inversion Hreply'; subst a t.
        rewrite Hjwt in Hjwt'. inversion Hjwt'; subst exp iat.
        rewrite Hexp1. cbn [to_number number_sub number_mul number_add
                            number_gt].
        pose proof (Hclock w1) as Hmono.
        apply Z.ltb_lt. lia.
    + exact (logIn_not_pending _ _ _ _ _ _ (short_lived_succeed _ Hshort)
               Hlogin).
Qed.

Lemma issue_token_truthy w :
  exists access,
    issue_token w = AuthData (Some access) (Some "Bearer") /\
    truthy (Some access) = true.
Proof.
  unfold issue_token.
  destruct (authenticate_calls w) as [| [| [| n]]]; eexists; split;
    reflexivity.
Qed.

Lemma env_short_lived_tokens : tokens_short_lived env_short_lived.
Proof.
  intros w. destruct (issue_token_truthy w) as (access & Hreply & Htruthy).
  exists (Some access), (Some "Bearer"), 10, 0.
  repeat split; assumption.
Qed.

Lemma env_short_lived_clock : clock_monotone env_short_lived.
Proof.
  intros w. cbn [env_short_lived Date_now length]. lia.
Qed.

Lemma short_lived_tokens_never_settle_witness :
  call 7 env_short_lived (Read "a/b/c" VUndefined "data")
    (logged_in_instance false) login_events = None.
Proof.
  exact (short_lived_tokens_never_settle env_short_lived
           (Read "a/b/c" VUndefined "data") env_short_lived_tokens
           env_short_lived_clock 7 (logged_in_instance false) login_events
           eq_refl eq_refl).
Defined.

(** ** The reconnect *)

(** X7: with [autoReconnect] on, on a device that accepts every login while
    its data layer answers 401 to every call, a data-layer call on a
    logged-in instance never settles: every 401 is followed by a login and
    the call made again. *)
Theorem always_unauthorized_never_settles env op :
  logins_succeed env ->
  (forall w, unauthorized env w = true) ->
  forall fuel c w,
    _state c = STATE_LOGGED_IN ->
    _autoReconnect c = true ->
    call fuel env op c w = None.
Proof.
  intros Hok H401 fuel. revert op.
  induction fuel as [| fuel IH]; intros op c w Hlogged Hon.
  - destruct op; reflexivity.
  - destruct (call (S fuel) env op c w) as [[[r c'] w'] |] eqn:Hcall;
      [exfalso | reflexivity].
    rewrite call_invoke in Hcall.
    pose proof (H401 (transport_call c op :: EvNow :: w)) as Hhere.
    unfold unauthorized in Hhere.
    assert (Hnext : forall d c1 w1 w0,
               logIn fuel env c w0 = Some (Resolved d, c1, w1) ->
               _state c1 = STATE_LOGGED_IN /\ _autoReconnect c1 = true).
    { intros d c1 w1 w0 Hl. apply logIn_post_holds in Hl.
      destruct Hl as [(_ & _ & _ & _ & Hsame)
                        (exp & iat & _ & _ & _ & _ & _ & _ & _ & _ & _ & Hst1
                         & _)].
      split; congruence. }
    invoke_cases Hcall;
      try (rewrite Hlogged in Hin; discriminate);
      try (exact (logIn_not_rejected _ _ _ _ _ _ _ Hok Hlogin));
      try (exact (logIn_not_pending _ _ _ _ _ _ Hok Hlogin));
      try (rewrite Hreply in Hhere; rewrite Hhere, Hon in Hauto;
           discriminate);
      try (rewrite Hreply in Hhere; discriminate).
    + destruct (Hnext _ _ _ _ Hlogin) as [Hst1 Hauto1].
      rewrite <- call_invoke, IH in Hretry by assumption. discriminate.
    + destruct (Hnext _ _ _ _ Hlogin) as [Hst1 Hauto1].
      rewrite <- call_invoke, IH in Hretry by assumption. discriminate.
Qed.

Lemma env_always_unauthorized_logins : logins_succeed env_always_unauthorized.
Proof.
  intros w. destruct (issue_token_truthy w) as (access & Hreply & Htruthy).
  exists (Some access), (Some "Bearer"), (Some 3600), (Some 0).
  repeat split; assumption.
Qed.

Lemma always_unauthorized_never_settles_witness :
  call 9 env_always_unauthorized (Write "a/b/c" (VNum 7))
    (logged_in_instance true) login_events = None.
Proof.
  exact (always_unauthorized_never_settles env_always_unauthorized
           (Write "a/b/c" (VNum 7)) env_always_unauthorized_logins
           (fun _ => eq_refl) 9 (logged_in_instance true) login_events
           eq_refl eq_refl).
Defined.

(** ** Where the outcome of a data-layer call comes from *)

Lemma transport_call_is_transport_call c op :
  is_transport_call (transport_call c op) = true.
Proof. destruct op; reflexivity. Qed.

Lemma transport_call_credentials c op :
  credentials (transport_call c op) =
  Some (_hostname c, _tokenType c, _token c, _timeout c).
Proof. destruct op; reflexivity. Qed.

Lemma resolved_with_retried op returned answer :
  resolved_with (retried op returned) answer = resolved_with op answer.
Proof. destruct op; reflexivity. Qed.

(** X8: a data-layer call that resolves has the call of the transport as
    the last thing it did; that call was made with the token the instance
    holds afterwards and was answered without error, and the call resolves
    with that answer ([datalayerDelete] with nothing).  The instance is
    logged in. *)
Theorem resolved_call_provenance fuel env op c w v c' w' :
  call fuel env op c w = Some (Resolved v, c', w') ->
  exists e rest returned,
    w' = e :: rest /\
    is_transport_call e = true /\
    credentials e = Some (_hostname c', _tokenType c', _token c', _timeout c')
    /\ datalayer_reply env w' = DlOk returned /\
    v = resolved_with op returned /\
    _state c' = STATE_LOGGED_IN.
Proof.
  rewrite call_invoke. revert op c w c' w'.
  induction fuel as [| fuel IH]; intros op c w c' w' H; [discriminate |].
  invoke_cases H; try discriminate.
  - eapply IH; eauto.
  - inversion Hr; subst.
    exists (transport_call c op), (EvNow :: w), returned.
    repeat split; auto using transport_call_is_transport_call,
                    transport_call_credentials.
  - apply IH in Hretry.
    destruct Hretry as (e & rest & answer & Hw & He & Hcred & Hreply' & Hv & _).
    subst c'. exists e, rest, answer.
    rewrite resolved_with_retried in Hv. repeat split; auto.
Qed.

Lemma resolved_call_provenance_witness :
  exists e rest returned,
    [EvWrite "192.168.1.1" (Some "Bearer") (Some "token-3") "a/b/c"
       (VNum 7) (-1);
     EvNow; EvNow;
     EvAuthenticate "192.168.1.1" "boschrexroth" "boschrexroth" (-1);
     EvDeleteToken "192.168.1.1" (Some "Bearer") (Some "token-2") (-1);
     EvWrite "192.168.1.1" (Some "Bearer") (Some "token-2") "a/b/c"
       (VNum 7) (-1);
     EvNow; EvNow;
     EvAuthenticate "192.168.1.1" "boschrexroth" "boschrexroth" (-1);
     EvDeleteToken "192.168.1.1" (Some "Bearer") (Some "token-1") (-1);
     EvWrite "192.168.1.1" (Some "Bearer") (Some "token-1") "a/b/c"
       (VNum 7) (-1);
     EvNow] ++ login_events = e :: rest /\
    credentials e =
      Some ("192.168.1.1", Some "Bearer", Some "token-3", -1) /\
    VNum 5 = resolved_with (Write "a/b/c" (VNum 7)) returned.
Proof.
  destruct (resolved_call_provenance _ _ _ _ _ _ _ _ chained_reconnect)
    as (e & rest & returned & Hw & _ & Hcred & _ & Hv & _).
  exists e, rest, returned. repeat split; assumption.
Defined.

Lemma tokens_absent_set_state s c :
  tokens_absent c -> tokens_absent (set_state s c).
Proof. intros H. exact H. Qed.

(** X9: a data-layer call on a logged-in instance is rejected either with
    the error of a failed login, which was the last thing it did and after
    which the instance holds no token, or with the error the transport
    answered to its last call; and the transport's error is a 401 only when
    [autoReconnect] is off. *)
Theorem rejected_call_provenance fuel env op c w reason c' w' :
  _state c = STATE_LOGGED_IN ->
  call fuel env op c w = Some (Rejected reason, c', w') ->
  (login_failure env w' reason /\ tokens_absent c') \/
  (exists returned,
     datalayer_reply env w' = DlError reason returned /\
     status_is_401 reason && _autoReconnect c = false /\
     _state c' = STATE_LOGGED_IN /\
     exists e rest, w' = e :: rest /\ is_transport_call e = true).
Proof.
  rewrite call_invoke. revert op c w c' w'.
  induction fuel as [| fuel IH]; intros op c w c' w' Hlogged H;
    [discriminate |].
  assert (Hnext : forall d c1 w1 w0,
             logIn fuel env c w0 = Some (Resolved d, c1, w1) ->
             _state c1 = STATE_LOGGED_IN /\
             _autoReconnect c1 = _autoReconnect c).
  { intros d c1 w1 w0 Hl. apply logIn_post_holds in Hl.
    destruct Hl as [(_ & _ & _ & _ & Hsame)
                      (exp & iat & _ & _ & _ & _ & _ & _ & _ & _ & _ & Hst1
                       & _)].
    split; congruence. }
  invoke_cases H; try discriminate.
  - rewrite Hlogged in Hin. discriminate.
  - left. inversion Hr; subst reason. apply logIn_post_holds in Hlogin.
    destruct Hlogin as [_ (Habs & _ & -> & Hfail)]. split; assumption.
  - destruct (Hnext _ _ _ _ Hlogin) as [Hst1 Hauto1].
    rewrite <- Hauto1. eapply IH; eauto.
  - right. inversion Hr; subst reason. subst c' w'. exists returned.
    repeat split; auto.
    exists (transport_call c op), (EvNow :: w).
      split; [reflexivity | apply transport_call_is_transport_call].
  - left. inversion Hr; subst reason. apply logIn_post_holds in Hlogin.
    destruct Hlogin as [_ (Habs & _ & -> & Hfail)]. subst c'.
    split; [assumption | now apply tokens_absent_set_state].
  - destruct (Hnext _ _ _ _ Hlogin) as [Hst1 Hauto1].
    destruct (IH _ _ _ _ _ Hst1 Hretry) as [[Hfail Habs] | Htransport].
    + left. subst c'. split; [assumption | now apply tokens_absent_set_state].
    + right. destruct Htransport as (answer & Hreply' & H401 & _ & Hhead).
      exists answer. subst c'. rewrite <- Hauto1. repeat split; auto.
Qed.

Lemma rejected_call_provenance_witness :
  (login_failure env_login_once
     ([EvAuthenticate "192.168.1.1" "boschrexroth" "boschrexroth" (-1);
       EvDeleteToken "192.168.1.1" (Some "Bearer") (Some "token-1") (-1);
       EvRead "192.168.1.1" (Some "Bearer") (Some "token-1") "a/b/c"
         VUndefined "data" (-1);
       EvNow] ++ login_events)
     (HttpError "connect ECONNREFUSED") /\
   tokens_absent
     (set_state STATE_LOGGED_IN (invalidate (logged_in_instance true)))) \/
  (exists returned,
     datalayer_reply env_login_once
       ([EvAuthenticate "192.168.1.1" "boschrexroth" "boschrexroth" (-1);
         EvDeleteToken "192.168.1.1" (Some "Bearer") (Some "token-1") (-1);
         EvRead "192.168.1.1" (Some "Bearer") (Some "token-1") "a/b/c"
           VUndefined "data" (-1);
         EvNow] ++ login_events)
       = DlError (HttpError "connect ECONNREFUSED") returned /\
     status_is_401 (HttpError "connect ECONNREFUSED") &&
       _autoReconnect (set_autoReconnect true (logged_in_instance false))
       = false /\
     _state (set_state STATE_LOGGED_IN (invalidate (logged_in_instance true)))
       = STATE_LOGGED_IN /\
     exists e rest,
       [EvAuthenticate "192.168.1.1" "boschrexroth" "boschrexroth" (-1);
        EvDeleteToken "192.168.1.1" (Some "Bearer") (Some "token-1") (-1);
        EvRead "192.168.1.1" (Some "Bearer") (Some "token-1") "a/b/c"
          VUndefined "data" (-1);
        EvNow] ++ login_events = e :: rest /\
       is_transport_call e = true).
Proof.
  exact (rejected_call_provenance 3 env_login_once
           (Read "a/b/c" VUndefined "data")
           (set_autoReconnect true (logged_in_instance false)) login_events
           _ _ _ eq_refl failed_reconnect).
Defined.

Lemma logIn_counts fuel env c w r c' w' :
  _state c = STATE_LOGGED_IN ->
  logIn fuel env c w = Some (r, c', w') ->
  authenticate_calls w' = S (authenticate_calls w) /\
  deleteToken_calls w' = S (deleteToken_calls w).
Proof.
  intros Hst H. apply logIn_post_holds in H. destruct H as [_ H].
  unfold logIn_trace in H. rewrite Hst in H.
  cbn [logged_in_or_authenticating] in H.
  destruct r as [d | err |].
  - destruct H as (exp & iat & _ & _ & _ & _ & _ & -> & _).
    split; reflexivity.
  - destruct H as (_ & _ & -> & _). split; reflexivity.
  - destruct H as (_ & -> & _). split; reflexivity.
Qed.

Lemma logIn_resolved_logged_in fuel env c w d c' w' :
  logIn fuel env c w = Some (Resolved d, c', w') ->
  _state c' = STATE_LOGGED_IN.
Proof.
  intros H. apply logIn_post_holds in H.
  destruct H as [_ (exp & iat & _ & _ & _ & _ & _ & _ & _ & _ & _ & Hst & _)].
  exact Hst.
Qed.

(** X10: every login a data-layer call makes is preceded by a call of
    [_deleteToken]: over the whole call the two are called the same number
    of times. *)
Theorem call_revokes_before_login fuel env op c w r c' w' :
  call fuel env op c w = Some (r, c', w') ->
  (deleteToken_calls w' + authenticate_calls w =
   authenticate_calls w' + deleteToken_calls w)%nat.
Proof.
  rewrite call_invoke. revert op c w r c' w'.
  induction fuel as [| fuel IH]; intros op c w r c' w' H; [discriminate |].
  assert (Hcall : forall w0,
             deleteToken_calls (transport_call c op :: EvNow :: w0)
               = deleteToken_calls w0 /\
             authenticate_calls (transport_call c op :: EvNow :: w0)
               = authenticate_calls w0).
  { intros w0. destruct op; repeat split. }
  assert (Hnow : forall w0,
             deleteToken_calls (EvNow :: w0) = deleteToken_calls w0 /\
             authenticate_calls (EvNow :: w0) = authenticate_calls w0).
  { intros w0. repeat split. }
  destruct (Hcall w) as (Hc1 & Hc2).
  destruct (Hnow w) as (Hn1 & Hn2).
  invoke_cases H; subst; try lia.
  - destruct (logIn_counts _ _ _ _ _ _ _ Hst Hlogin) as [Ha Hd]. lia.
  - destruct (logIn_counts _ _ _ _ _ _ _ Hst Hlogin) as [Ha Hd].
    apply IH in Hretry. lia.
  - destruct (logIn_counts _ _ _ _ _ _ _ Hst Hlogin) as [Ha Hd]. lia.
  - destruct (logIn_counts _ _ _ _ _ _ _ Hst Hlogin) as [Ha Hd].
    apply IH in Hretry. lia.
  - destruct (logIn_counts _ _ _ _ _ _ _ Hst Hlogin) as [Ha Hd]. lia.
  - destruct (logIn_counts _ _ _ _ _ _ _ Hst Hlogin) as [Ha Hd]. lia.
Qed.

Lemma call_revokes_before_login_witness :
  (deleteToken_calls
     ([EvWrite "192.168.1.1" (Some "Bearer") (Some "token-3") "a/b/c"
         (VNum 7) (-1);
       EvNow; EvNow;
       EvAuthenticate "192.168.1.1" "boschrexroth" "boschrexroth" (-1);
       EvDeleteToken "192.168.1.1" (Some "Bearer") (Some "token-2") (-1);
       EvWrite "192.168.1.1" (Some "Bearer") (Some "token-2") "a/b/c"
         (VNum 7) (-1);
       EvNow; EvNow;
       EvAuthenticate "192.168.1.1" "boschrexroth" "boschrexroth" (-1);
       EvDeleteToken "192.168.1.1" (Some "Bearer") (Some "token-1") (-1);
       EvWrite "192.168.1.1" (Some "Bearer") (Some "token-1") "a/b/c"
         (VNum 7) (-1);
       EvNow] ++ login_events) + authenticate_calls login_events =
   authenticate_calls
     ([EvWrite "192.168.1.1" (Some "Bearer") (Some "token-3") "a/b/c"
         (VNum 7) (-1);
       EvNow; EvNow;
       EvAuthenticate "192.168.1.1" "boschrexroth" "boschrexroth" (-1);
       EvDeleteToken "192.168.1.1" (Some "Bearer") (Some "token-2") (-1);
       EvWrite "192.168.1.1" (Some "Bearer") (Some "token-2") "a/b/c"
         (VNum 7) (-1);
       EvNow; EvNow;
       EvAuthenticate "192.168.1.1" "boschrexroth" "boschrexroth" (-1);
       EvDeleteToken "192.168.1.1" (Some "Bearer") (Some "token-1") (-1);
       EvWrite "192.168.1.1" (Some "Bearer") (Some "token-1") "a/b/c"
         (VNum 7) (-1);
       EvNow] ++ login_events) + deleteToken_calls login_events)%nat.
Proof.
  exact (call_revokes_before_login _ _ _ _ _ _ _ _ chained_reconnect).
Defined.

(** ** After a login that failed inside a data-layer call *)

Lemma logIn_rejected_expireTime fuel env c w err c' w' :
  logIn fuel env c w = Some (Rejected err, c', w') ->
  _token_expireTime c' = _token_expireTime c.
Proof.
  assert (Hfresh : forall fuel0 c0 w0,
             _state c0 = STATE_LOGGED_OUT ->
             logIn (S fuel0) env c0 w0 = Some (Rejected err, c', w') ->
             _token_expireTime c' = _token_expireTime c0).
  { intros fuel0 c0 w0 Hst H. cbn [logIn] in H. rewrite Hst in H.
    cbn [logged_in_or_authenticating] in H.
    destruct (authenticate_reply env _) as [e | | | access token_t].
    - inversion H; subst. reflexivity.
    - discriminate.
    - discriminate.
    - destruct (negb (truthy access) || negb (truthy token_t)).
      + inversion H; subst. reflexivity.
      + destruct (parseJwt env (string_of access)) as [e | [| exp iat]];
          inversion H; subst; reflexivity. }
  destruct fuel as [| fuel]; [discriminate |].
  destruct (logged_in_or_authenticating (_state c)) eqn:Hguard.
  - cbn [logIn]. rewrite Hguard, logOut_eq.
    destruct fuel as [| fuel]; [discriminate |].
    intros H. apply Hfresh in H; [exact H | reflexivity].
  - intros H. apply Hfresh in H; [exact H |].
    destruct (_state c); try discriminate; reflexivity.
Qed.

(** X11: when the login of a reconnect fails, the call is rejected but the
    instance stays logged in, without token and with the expiry it had.  A
    later data-layer call made before that expiry is therefore not rejected
    as unauthenticated: it calls the transport, with an undefined token type
    and an undefined token. *)
Theorem failed_reconnect_still_calls fuel env op c w failure returned reason
    c1 w3 :
  _state c = STATE_LOGGED_IN ->
  number_gt (Num (Date_now env (EvNow :: w))) (_token_expireTime c) = false ->
  datalayer_reply env (transport_call c op :: EvNow :: w) =
    DlError failure returned ->
  status_is_401 failure && _autoReconnect c = true ->
  logIn fuel env c (transport_call c op :: EvNow :: w) =
    Some (Rejected reason, c1, w3) ->
  let c' := set_state STATE_LOGGED_IN c1 in
  call (S fuel) env op c w = Some (Rejected reason, c', w3) /\
  _state c' = STATE_LOGGED_IN /\ tokens_absent c' /\
  _token_expireTime c' = _token_expireTime c /\
  forall fuel2 env2 op2 w4 r c2 w5,
    number_gt (Num (Date_now env2 (EvNow :: w4))) (_token_expireTime c)
      = false ->
    call (S fuel2) env2 op2 c' w4 = Some (r, c2, w5) ->
    extends w5 (transport_call c' op2 :: EvNow :: w4) /\
    credentials (transport_call c' op2) =
      Some (_hostname c, None, None, _timeout c).
Proof.
  intros Hlogged Hfresh Hreply Hon Hlogin c'.
  pose proof (logIn_rejected_expireTime _ _ _ _ _ _ _ Hlogin) as Hexp.
  pose proof (logIn_post_holds _ _ _ _ _ _ _ Hlogin)
    as [(Hhost & _ & _ & Htime & _) ((Htok & Htt & Hdec) & _)].
  split; [| split; [| split; [| split]]].
  - rewrite call_invoke, (invoke_logged_in _ _ _ _ _ Hlogged), Hfresh,
      Hreply, Hon, Hlogin. reflexivity.
  - reflexivity.
  - repeat split; assumption.
  - exact Hexp.
  - intros fuel2 env2 op2 w4 r c2 w5 Hfresh2 Hcall. split.
    + rewrite call_invoke in Hcall.
      eapply invoke_after_transport_call; eauto.
      subst c'. cbn [set_state _token_expireTime]. now rewrite Hexp.
    + rewrite transport_call_credentials. subst c'.
      cbn [set_state _hostname _tokenType _token _timeout].
      now rewrite Hhost, Htime, Htok, Htt.
Qed.

(** X12: when the login that renews an expired token fails, the call is
    rejected with the login's error and the instance is logged out: every
    later data-layer call is rejected as unauthenticated, without a call of
    the transport, until [logIn] is called. *)
Theorem failed_renewal_logs_out fuel env op c w reason c1 w2 :
  _state c = STATE_LOGGED_IN ->
  number_gt (Num (Date_now env (EvNow :: w))) (_token_expireTime c) = true ->
  logIn fuel env c (EvNow :: w) = Some (Rejected reason, c1, w2) ->
  call (S fuel) env op c w = Some (Rejected reason, c1, w2) /\
  _state c1 = STATE_LOGGED_OUT /\ tokens_absent c1 /\
  forall fuel2 env2 op2 w3,
    call (S fuel2) env2 op2 c1 w3 =
    Some (Rejected (JsError (not_authenticated op2)), c1, w3).
Proof.
  intros Hlogged Hexpired Hlogin.
  pose proof (logIn_post_holds _ _ _ _ _ _ _ Hlogin)
    as [_ (Habs & Hst1 & _)].
  split; [| split; [| split]]; try assumption.
  - rewrite call_invoke, (invoke_logged_in _ _ _ _ _ Hlogged), Hexpired,
      Hlogin. reflexivity.
  - intros fuel2 env2 op2 w3. rewrite call_invoke. cbn [invoke].
    rewrite Hst1. reflexivity.
Qed.

Lemma failed_reconnect_still_calls_witness :
  call 3 env_login_once (Read "a/b/c" VUndefined "data")
    (logged_in_instance true) login_events =
  Some (Rejected (HttpError "connect ECONNREFUSED"),
        set_state STATE_LOGGED_IN (invalidate (logged_in_instance true)),
        [EvAuthenticate "192.168.1.1" "boschrexroth" "boschrexroth" (-1);
         EvDeleteToken "192.168.1.1" (Some "Bearer") (Some "token-1") (-1);
         EvRead "192.168.1.1" (Some "Bearer") (Some "token-1") "a/b/c"
           VUndefined "data" (-1);
         EvNow] ++ login_events) /\
  forall r c2 w5,
    call 1 (env_answering 2000) (Browse "a/b")
      (set_state STATE_LOGGED_IN (invalidate (logged_in_instance true))) []
      = Some (r, c2, w5) ->
    extends w5
      [EvRead "192.168.1.1" None None "a/b" VUndefined "browse" (-1); EvNow].
Proof.
  destruct (failed_reconnect_still_calls 2 env_login_once
              (Read "a/b/c" VUndefined "data") (logged_in_instance true)
              login_events unauthorized_error VNull
              (HttpError "connect ECONNREFUSED")
              (invalidate (logged_in_instance true))
              ([EvAuthenticate "192.168.1.1" "boschrexroth" "boschrexroth"
                  (-1);
                EvDeleteToken "192.168.1.1" (Some "Bearer") (Some "token-1")
                  (-1);
                EvRead "192.168.1.1" (Some "Bearer") (Some "token-1") "a/b/c"
                  VUndefined "data" (-1);
                EvNow] ++ login_events)
              eq_refl eq_refl eq_refl eq_refl eq_refl)
    as (Hcall & _ & _ & _ & Hlater).
  split; [exact Hcall |].
  intros r c2 w5 Hnext.
  exact (proj1 (Hlater 0%nat (env_answering 2000) (Browse "a/b") [] r c2 w5
                  eq_refl Hnext)).
Defined.

Lemma failed_renewal_logs_out_witness :
  call 3 env_unreachable_late (Read "a/b/c" VUndefined "data")
    (logged_in_instance true) login_events =
  Some (Rejected (HttpError "connect ECONNREFUSED"),
        invalidate (logged_in_instance true),
        [EvAuthenticate "192.168.1.1" "boschrexroth" "boschrexroth" (-1);
         EvDeleteToken "192.168.1.1" (Some "Bearer") (Some "token-1") (-1);
         EvNow] ++ login_events) /\
  call 1 (env_answering 2000) (Delete "a/b")
    (invalidate (logged_in_instance true)) [] =
  Some (Rejected
          (JsError
             "Failed to delete node on Data Layer. Not authenticated. Please login first."),
        invalidate (logged_in_instance true), []).
Proof.
  destruct (failed_renewal_logs_out 2 env_unreachable_late
              (Read "a/b/c" VUndefined "data") (logged_in_instance true)
              login_events (HttpError "connect ECONNREFUSED")
              (invalidate (logged_in_instance true))
              ([EvAuthenticate "192.168.1.1" "boschrexroth" "boschrexroth"
                  (-1);
                EvDeleteToken "192.168.1.1" (Some "Bearer") (Some "token-1")
                  (-1);
                EvNow] ++ login_events)
              eq_refl eq_refl eq_refl)
    as (Hcall & _ & _ & Hlater).
  split; [exact Hcall |].
  exact (Hlater 0%nat (env_answering 2000) (Delete "a/b") []).
Defined.

(** ** _parseJwt *)

Lemma split_without_separator separator s :
  JS.contains separator s = false -> JS.split separator s = [s].
Proof.
  induction s as [| ch rest IH]; cbn [JS.contains JS.split]; [reflexivity |].
  intros H. apply orb_false_elim in H. destruct H as [Hch Hrest].
  rewrite Hch, (IH Hrest). reflexivity.
Qed.

Lemma split_at_separator separator s rest :
  JS.contains separator s = false ->
  JS.split separator (s ++ String separator rest) =
  s :: JS.split separator rest.
Proof.
  induction s as [| ch s IH]; cbn [JS.contains JS.split append].
  - intros _. rewrite Ascii.eqb_refl. reflexivity.
  - intros H. apply orb_false_elim in H. destruct H as [Hch Hs].
    rewrite Hch, (IH Hs). reflexivity.
Qed.

Lemma split_head separator s :
  exists segment segments, JS.split separator s = segment :: segments.
Proof.
  induction s as [| ch rest (segment & segments & IH)]; cbn [JS.split].
  - eauto.
  - destruct (Ascii.eqb ch separator); [eauto |]. rewrite IH. eauto.
Qed.

Lemma parseJwt_without_dot_aux atob decodeURIComponent JSON_parse token :
  JS.contains "." token = false ->
  _parseJwt atob decodeURIComponent JSON_parse token =
  ParseThrows (Thrown "TypeError: Cannot read properties of undefined").
Proof.
  intros H. unfold _parseJwt.
  rewrite (split_without_separator _ _ H). reflexivity.
Qed.

Section ParseJwtProperties.

Variable atob : string -> completion string.
Variable decodeURIComponent : string -> completion string.
Variable JSON_parse : string -> parse_result.

(** X13: a token without a dot makes [_parseJwt] throw a [TypeError],
    whatever the platform functions do: there is no second segment to
    decode. *)
Theorem parseJwt_without_dot token :
  JS.contains "." token = false ->
  _parseJwt atob decodeURIComponent JSON_parse token =
  ParseThrows (Thrown "TypeError: Cannot read properties of undefined").
Proof.
  apply parseJwt_without_dot_aux.
Qed.

(** X14: [_parseJwt] reads the second of the segments the dots separate
    and nothing else: two tokens with the same payload segment decode
    alike, whatever their header and their signature, and so does the
    token without signature.  Nothing is verified. *)
Theorem parseJwt_reads_payload_only header1 header2 payload rest1 rest2 :
  JS.contains "." header1 = false ->
  JS.contains "." header2 = false ->
  JS.contains "." payload = false ->
  _parseJwt atob decodeURIComponent JSON_parse
    (header1 ++ "." ++ payload ++ "." ++ rest1)%string =
  _parseJwt atob decodeURIComponent JSON_parse
    (header2 ++ "." ++ payload ++ "." ++ rest2)%string /\
  _parseJwt atob decodeURIComponent JSON_parse
    (header1 ++ "." ++ payload ++ "." ++ rest1)%string =
  _parseJwt atob decodeURIComponent JSON_parse
    (header2 ++ "." ++ payload)%string.
Proof.
  intros H1 H2 Hp.
  assert (Hsecond : forall header rest,
             JS.contains "." header = false ->
             nth_error
               (JS.split "."
                  (header ++ "." ++ payload ++ "." ++ rest)%string) 1
             = Some payload).
  { intros header rest Hh. cbn [append].
    rewrite (split_at_separator _ _ _ Hh), (split_at_separator _ _ _ Hp).
    reflexivity. }
  assert (Hlast : forall header,
             JS.contains "." header = false ->
             nth_error (JS.split "." (header ++ "." ++ payload)%string) 1
             = Some payload).
  { intros header Hh. cbn [append].
    rewrite (split_at_separator _ _ _ Hh), (split_without_separator _ _ Hp).
    reflexivity. }
  unfold _parseJwt.
  rewrite (Hsecond header1 rest1 H1), (Hsecond header2 rest2 H2),
    (Hlast header2 H2).
  split; reflexivity.
Qed.

End ParseJwtProperties.

Lemma parseJwt_without_dot_witness :
  _parseJwt (fun s => Normal s) (fun s => Normal s)
    (fun _ => ParseReturns PayloadNull) "not-a-token" =
  ParseThrows (Thrown "TypeError: Cannot read properties of undefined").
Proof.
  exact (parseJwt_without_dot _ _ _ "not-a-token" eq_refl).
Defined.

Lemma parseJwt_reads_payload_only_witness :
  _parseJwt (fun s => Normal s) (fun s => Normal s)
    (fun s => ParseThrows (Thrown s)) "eyJhbGciOiJIUzI1NiJ9.e30.c2lnbmVk" =
  _parseJwt (fun s => Normal s) (fun s => Normal s)
    (fun s => ParseThrows (Thrown s)) "forged.e30".
Proof.
  exact (proj2 (parseJwt_reads_payload_only _ _ _ "eyJhbGciOiJIUzI1NiJ9"
                  "forged" "e30" "c2lnbmVk" "" eq_refl eq_refl eq_refl)).
Defined.

Lemma logIn_rejects fuel env c w err :
  (2 <= fuel)%nat ->
  login_failure env (authenticate_call c :: logIn_trace c w) err ->
  exists c',
    logIn fuel env c w =
      Some (Rejected err, c', authenticate_call c :: logIn_trace c w) /\
    tokens_absent c' /\ _state c' = STATE_LOGGED_OUT.
Proof.
  intros Hfuel Hfail.
  destruct (logIn_terminates fuel env c w Hfuel) as [[[r c'] w'] H].
  pose proof (logIn_post_holds _ _ _ _ _ _ _ H) as [_ Hpost].
  destruct r as [d | err' |].
  - exfalso. eapply login_failure_not_success; eauto.
  - destruct Hpost as (Habs & Hst & -> & Hfail').
    rewrite (login_failure_fun _ _ _ _ Hfail Hfail'). eauto.
  - destruct Hpost as (Hreply & _).
    rewrite (login_failure_calls_back _ _ _ Hfail) in Hreply. discriminate.
Qed.

(** X15: when the device answers the authentication with a token that has
    no dot, and the instance decodes with [_parseJwt], [logIn] is rejected
    with the [TypeError] and the instance is logged out, without token,
    although the device accepted the credentials. *)
Theorem logIn_rejects_token_without_dot fuel env c w access token_t :
  (2 <= fuel)%nat ->
  (exists atob decodeURIComponent JSON_parse,
     parseJwt env = _parseJwt atob decodeURIComponent JSON_parse) ->
  authenticate_reply env (authenticate_call c :: logIn_trace c w) =
    AuthData (Some access) token_t ->
  truthy (Some access) = true -> truthy token_t = true ->
  JS.contains "." access = false ->
  exists c',
    logIn fuel env c w =
      Some (Rejected
              (Thrown "TypeError: Cannot read properties of undefined"),
            c', authenticate_call c :: logIn_trace c w) /\
    tokens_absent c' /\ _state c' = STATE_LOGGED_OUT.
Proof.
  intros Hfuel (atob & decodeURIComponent & JSON_parse & Hjwt) Hreply Ha Ht
    Hdot.
  apply logIn_rejects; [assumption |].
  eapply decoding_throws; [exact Hreply | now rewrite Ha, Ht |].
  rewrite Hjwt. cbn [string_of]. now apply parseJwt_without_dot_aux.
Qed.

Lemma logIn_rejects_token_without_dot_witness :
  exists c',
    logIn 2 (env_parsing "opaque-token") fresh_instance [] =
      Some (Rejected
              (Thrown "TypeError: Cannot read properties of undefined"),
            c',
            [EvAuthenticate "192.168.1.1" "boschrexroth" "boschrexroth"
               (-1)]) /\
    tokens_absent c' /\ _state c' = STATE_LOGGED_OUT.
Proof.
  exact (logIn_rejects_token_without_dot 2 (env_parsing "opaque-token")
           fresh_instance [] "opaque-token" (Some "Bearer") (le_n 2)
           (ex_intro _ _ (ex_intro _ _ (ex_intro _ _ eq_refl)))
           eq_refl eq_refl eq_refl eq_refl).
Defined.

Lemma replace_all_length pattern replacement s :
  String.length (JS.replace_all pattern replacement s) = String.length s.
Proof.
  induction s as [| ch rest IH]; cbn [JS.replace_all String.length];
    [reflexivity | now rewrite IH].
Qed.

Lemma replace_all_removes pattern replacement s :
  Ascii.eqb replacement pattern = false ->
  JS.contains pattern (JS.replace_all pattern replacement s) = false.
Proof.
  intros Hdiff.
  induction s as [| ch rest IH]; cbn [JS.replace_all JS.contains];
    [reflexivity |].
  rewrite IH. destruct (Ascii.eqb ch pattern) eqn:Hch.
  - now rewrite Hdiff.
  - now rewrite Hch.
Qed.

Lemma replace_all_keeps_absent other pattern replacement s :
  Ascii.eqb replacement other = false ->
  JS.contains other s = false ->
  JS.contains other (JS.replace_all pattern replacement s) = false.
Proof.
  intros Hdiff.
  induction s as [| ch rest IH]; cbn [JS.replace_all JS.contains];
    [reflexivity |].
  intros H. apply orb_false_elim in H. destruct H as [Hch Hrest].
  rewrite (IH Hrest). destruct (Ascii.eqb ch pattern).
  - now rewrite Hdiff.
  - now rewrite Hch.
Qed.

Lemma replace_all_absent pattern replacement s :
  JS.contains pattern s = false -> JS.replace_all pattern replacement s = s.
Proof.
  induction s as [| ch rest IH]; cbn [JS.replace_all JS.contains];
    [reflexivity |].
  intros H. apply orb_false_elim in H. destruct H as [Hch Hrest].
  now rewrite Hch, (IH Hrest).
Qed.

(** X16: turning the base64url alphabet into the base64 alphabet changes
    the characters [-] and [_] and nothing else: the result has the length
    of the segment (no padding is added) and contains neither character, a
    segment without them is returned as it is, and converting twice is
    converting once. *)
Theorem base64_of_base64Url_alphabet s :
  String.length (base64_of_base64Url s) = String.length s /\
  JS.contains "-" (base64_of_base64Url s) = false /\
  JS.contains "_" (base64_of_base64Url s) = false /\
  base64_of_base64Url (base64_of_base64Url s) = base64_of_base64Url s /\
  (JS.contains "-" s = false -> JS.contains "_" s = false ->
   base64_of_base64Url s = s).
Proof.
  assert (Hminus : JS.contains "-" (base64_of_base64Url s) = false).
  { unfold base64_of_base64Url.
    apply replace_all_keeps_absent; [reflexivity |].
    now apply replace_all_removes. }
  assert (Hunder : JS.contains "_" (base64_of_base64Url s) = false).
  { unfold base64_of_base64Url. now apply replace_all_removes. }
  assert (Hsame : forall t,
             JS.contains "-" t = false -> JS.contains "_" t = false ->
             base64_of_base64Url t = t).
  { intros t Ha Hb. unfold base64_of_base64Url.
    rewrite (replace_all_absent "-" "+" t Ha).
    now apply replace_all_absent. }
  repeat split; auto.
  unfold base64_of_base64Url. now rewrite !replace_all_length.
Qed.

Lemma base64_of_base64Url_alphabet_witness :
  base64_of_base64Url "eyJleHAiOjM2MDAsImlhdCI6MH0" =
  "eyJleHAiOjM2MDAsImlhdCI6MH0"%string.
Proof.
  exact (proj2 (proj2 (proj2 (proj2
           (base64_of_base64Url_alphabet "eyJleHAiOjM2MDAsImlhdCI6MH0"))))
           eq_refl eq_refl).
Defined.

Lemma percent_encode_digits c :
  match percent_encode c with
  | String sign (String high (String low EmptyString)) =>
    sign = "%"%char /\
    match hex_value high, hex_value low with
    | Some h, Some l => ascii_of_N (16 * h + l) = c
    | _, _ => False
    end
  | _ => False
  end.
Proof.
  destruct c as [[] [] [] [] [] [] [] []]; vm_compute; split; reflexivity.
Qed.

Lemma percent_encode_decode c rest :
  percent_decode_all (percent_encode c ++ rest)%string =
  option_map (String c) (percent_decode_all rest).
Proof.
  pose proof (percent_encode_digits c) as H.
  destruct (percent_encode c) as [| sign [| high [| low [| extra more]]]];
    try contradiction.
  destruct H as [-> H]. cbn [append percent_decode_all].
  destruct (hex_value high) as [h |]; [| contradiction].
  destruct (hex_value low) as [l |]; [| contradiction].
  rewrite H. destruct (percent_decode_all rest); reflexivity.
Qed.

Lemma percent_encode_length c : String.length (percent_encode c) = 3%nat.
Proof.
  pose proof (percent_encode_digits c) as H.
  destruct (percent_encode c) as [| sign [| high [| low [| extra more]]]];
    try contradiction.
  reflexivity.
Qed.

Lemma append_length (s1 s2 : string) :
  String.length (s1 ++ s2)%string
  = (String.length s1 + String.length s2)%nat.
Proof.
  induction s1 as [| ch s1 IH]; cbn [append String.length];
    [reflexivity | now rewrite IH].
Qed.

(** X17: the escaping of the binary string writes every character as a
    percent sign and two hexadecimal digits from which the character can be
    read back: the escaped string is three times as long as the binary
    string and decodes to it, so no two binary strings are escaped alike. *)
Theorem percent_encode_all_round_trip binary :
  String.length (percent_encode_all binary)
    = (3 * String.length binary)%nat /\
  percent_decode_all (percent_encode_all binary) = Some binary /\
  forall other,
    percent_encode_all other = percent_encode_all binary -> other = binary.
Proof.
  assert (Hdecode : forall s, percent_decode_all (percent_encode_all s)
                              = Some s).
  { induction s as [| c rest IH]; cbn [percent_encode_all];
      [reflexivity |].
    now rewrite percent_encode_decode, IH. }
  split; [| split].
  - induction binary as [| c rest IH]; cbn [percent_encode_all String.length];
      [reflexivity |].
    rewrite append_length, percent_encode_length, IH. lia.
  - apply Hdecode.
  - intros other Heq.
    pose proof (Hdecode other) as Hother. rewrite Heq, Hdecode in Hother.
    now inversion Hother.
Qed.

Lemma percent_encode_all_round_trip_witness :
  percent_encode_all "{}" = "%7b%7d"%string /\
  forall other, percent_encode_all other = percent_encode_all "{}" ->
                other = "{}"%string.
Proof.
  split; [reflexivity |].
  exact (proj2 (proj2 (percent_encode_all_round_trip "{}"))).
Defined.

(** ** The label of the request node *)

Lemma drop_length n s :
  String.length (JS.drop n s) = (String.length s - n)%nat.
Proof.
  revert s. induction n as [| n IH]; intros s; cbn [JS.drop].
  - lia.
  - destruct s as [| ch rest]; cbn [String.length]; [reflexivity | apply IH].
Qed.

Lemma drop_suffix n s : exists hidden, s = (hidden ++ JS.drop n s)%string.
Proof.
  revert s. induction n as [| n IH]; intros s; cbn [JS.drop].
  - now exists EmptyString.
  - destruct s as [| ch rest]; [now exists EmptyString |].
    destruct (IH rest) as [hidden Hrest].
    exists (String ch hidden). cbn [append]. now rewrite <- Hrest.
Qed.

Lemma drop_drop n m s : JS.drop n (JS.drop m s) = JS.drop (m + n) s.
Proof.
  revert s. induction m as [| m IH]; intros s; [reflexivity |].
  destruct s as [| ch rest]; cbn [JS.drop Nat.add].
  - destruct n; reflexivity.
  - apply IH.
Qed.

Lemma indexOf_range s ch :
  (JS.indexOf s ch = -1 /\ JS.contains ch s = false) \/
  (0 <= JS.indexOf s ch < Z.of_nat (String.length s) /\
   JS.indexOf (JS.drop (Z.to_nat (JS.indexOf s ch)) s) ch = 0).
Proof.
  induction s as [| first rest IH]; cbn [JS.indexOf JS.contains String.length].
  - now left.
  - destruct (Ascii.eqb first ch) eqn:Hfirst.
    + right. split; [lia |]. cbn [Z.to_nat JS.drop JS.indexOf].
      now rewrite Hfirst.
    + destruct IH as [[Hnone Habs] | [Hrange Hat]].
      * left. rewrite Hnone. cbn. auto.
      * right. destruct (JS.indexOf rest ch <? 0) eqn:Hneg;
          [apply Z.ltb_lt in Hneg; lia |].
        split; [lia |].
        replace (Z.to_nat (JS.indexOf rest ch + 1))
          with (S (Z.to_nat (JS.indexOf rest ch))) by lia.
        cbn [JS.drop]. exact Hat.
Qed.

Lemma substr_drop start s :
  0 <= start ->
  JS.substr start s = JS.drop (Z.to_nat start) s.
Proof.
  intros H. unfold JS.substr.
  destruct (start <? 0) eqn:Hneg; [apply Z.ltb_lt in Hneg; lia |].
  destruct (Z.min_spec start (Z.of_nat (String.length s))) as [[_ ->] | [Hle ->]];
    [reflexivity |].
  rewrite Nat2Z.id.
  assert (Hfar : forall n t, (String.length t <= n)%nat ->
                             JS.drop n t = EmptyString).
  { induction n as [| n IHn]; intros t Ht; destruct t as [| c t];
      cbn [JS.drop String.length] in *; try reflexivity; try lia.
    apply IHn. lia. }
  rewrite (Hfar (String.length s) s), (Hfar (Z.to_nat start) s) by lia.
  reflexivity.
Qed.

(** X18: for a node without a name the label is never more than 51
    characters longer than the method: a path of fewer than 50 characters is
    shown whole, and of a longer path at most the last 45 characters are
    shown. *)
Theorem generateName_length node :
  truthy (Editor.name node) = false ->
  (String.length (Editor.generateName node) <=
   String.length (string_of (Editor.method node)) + 51)%nat.
Proof.
  intros Hname. unfold Editor.generateName. rewrite Hname.
  destruct (truthy (Editor.path node) && truthy (Editor.method node)).
  - destruct (String.length (string_of (Editor.path node)) <? 50)%nat eqn:Hshort.
    + apply Nat.ltb_lt in Hshort. rewrite !append_length.
      cbn [String.length]. lia.
    + apply Nat.ltb_ge in Hshort.
      set (whole := string_of (Editor.path node)) in *.
      set (shortPath := JS.substr (Z.of_nat (String.length whole) - 45) whole).
      assert (Hlen : String.length shortPath = 45%nat).
      { unfold shortPath. rewrite substr_drop by lia.
        rewrite drop_length. lia. }
      rewrite !append_length. cbn [String.length].
      rewrite substr_drop by lia. rewrite drop_length. lia.
  - destruct (truthy (Editor.method node) && negb (truthy (Editor.path node))).
    + rewrite append_length. cbn [String.length]. lia.
    + cbn [String.length]. lia.
Qed.

Lemma generateName_length_witness :
  (String.length (Editor.generateName long_path_node) <= 4 + 51)%nat.
Proof.
  exact (generateName_length long_path_node eq_refl).
Defined.

(** The characters before the first [ch] of [s] hold no [ch]. *)
Lemma indexOf_split s ch :
  0 <= JS.indexOf s ch ->
  exists skipped,
    s = (skipped ++ JS.drop (Z.to_nat (JS.indexOf s ch)) s)%string /\
    JS.contains ch skipped = false /\
    Z.of_nat (String.length skipped) = JS.indexOf s ch.
Proof.
  induction s as [| first rest IH]; cbn [JS.indexOf]; [lia |].
  destruct (Ascii.eqb first ch) eqn:Hfirst.
  - intros _. exists EmptyString. repeat split.
  - destruct (JS.indexOf rest ch <? 0) eqn:Hneg; [lia |].
    apply Z.ltb_ge in Hneg. intros _.
    destruct (IH Hneg) as (skipped & Hrest & Hnone & Hlen).
    exists (String first skipped).
    replace (Z.to_nat (JS.indexOf rest ch + 1))
      with (S (Z.to_nat (JS.indexOf rest ch))) by lia.
    cbn [JS.drop append JS.contains String.length].
    rewrite Hfirst, Hnone, <- Hrest. repeat split. lia.
Qed.

(** X19: for a node without a name whose path has 50 characters or more,
    the label is the method, a colon, an ellipsis and an end of the path of
    at most 45 characters: the end that starts at the first slash among the
    last 45 characters (no slash among the characters skipped before it),
    or the last 45 characters when there is no slash among them. *)
Theorem generateName_long_path node :
  truthy (Editor.name node) = false ->
  truthy (Editor.path node) = true ->
  truthy (Editor.method node) = true ->
  (50 <= String.length (string_of (Editor.path node)))%nat ->
  exists hidden skipped shown,
    string_of (Editor.path node) = (hidden ++ skipped ++ shown)%string /\
    String.length (skipped ++ shown) = 45%nat /\
    JS.contains "/" skipped = false /\
    Editor.generateName node =
      (string_of (Editor.method node) ++ ": ..." ++ shown)%string /\
    (1 <= String.length shown <= 45)%nat /\
    (JS.indexOf shown "/" = 0 \/
     (skipped = EmptyString /\ String.length shown = 45%nat /\
      JS.contains "/" shown = false)).
Proof.
  intros Hname Hpath Hmethod Hlong. unfold Editor.generateName.
  rewrite Hname, Hpath, Hmethod. cbn [andb].
  apply Nat.ltb_ge in Hlong. rewrite Hlong. apply Nat.ltb_ge in Hlong.
  set (whole := string_of (Editor.path node)) in *.
  set (from := (String.length whole - 45)%nat).
  assert (Hshort : JS.substr (Z.of_nat (String.length whole) - 45) whole
                   = JS.drop from whole).
  { rewrite substr_drop by lia. f_equal. unfold from. lia. }
  rewrite Hshort.
  assert (Hlen : String.length (JS.drop from whole) = 45%nat).
  { rewrite drop_length. unfold from. lia. }
  destruct (drop_suffix from whole) as [hidden Hwhole].
  destruct (indexOf_range (JS.drop from whole) "/")
    as [[Hnone Habs] | [Hrange Hat]].
  - rewrite Hnone. cbn [Z.max Z.compare].
    exists hidden, EmptyString, (JS.drop from whole).
    rewrite substr_drop by lia. cbn [Z.to_nat JS.drop append].
    repeat split; auto; lia.
  - rewrite Z.max_l by lia. rewrite substr_drop by lia.
    destruct (indexOf_split (JS.drop from whole) "/" (proj1 Hrange))
      as (skipped & Hsplit & Hskipped & Hcount).
    exists hidden, skipped,
      (JS.drop (Z.to_nat (JS.indexOf (JS.drop from whole) "/"))
         (JS.drop from whole)).
    rewrite <- Hsplit.
    repeat split; auto; rewrite drop_length; lia.
Qed.

Lemma generateName_long_path_witness :
  Editor.generateName deep_path_node =
    "READ: .../com_boschrexroth_comm_datalayer/active"%string /\
  exists hidden skipped shown,
    string_of (Editor.path deep_path_node)
      = (hidden ++ skipped ++ shown)%string /\
    String.length (skipped ++ shown) = 45%nat /\
    JS.contains "/" skipped = false /\
    Editor.generateName deep_path_node =
      (string_of (Editor.method deep_path_node) ++ ": ..." ++ shown)%string /\
    (1 <= String.length shown <= 45)%nat /\
    (JS.indexOf shown "/" = 0 \/
     (skipped = EmptyString /\ String.length shown = 45%nat /\
      JS.contains "/" shown = false)).
Proof.
  split; [reflexivity |].
  exact (generateName_long_path deep_path_node eq_refl eq_refl eq_refl
           (proj1 (Nat.leb_le 50 56) eq_refl)).
Defined.

(** ** The ids of the tree items *)

Lemma append_assoc (s1 s2 s3 : string) :
  ((s1 ++ s2) ++ s3 = s1 ++ s2 ++ s3)%string.
Proof.
  induction s1 as [| ch s1 IH]; cbn [append]; [reflexivity | now rewrite IH].
Qed.

Lemma descend_from id names :
  id <> EmptyString ->
  fold_left Editor.child_id names id = String.concat "/" (id :: names).
Proof.
  revert id. induction names as [| val names IH]; intros id Hid.
  - reflexivity.
  - cbn [fold_left]. unfold Editor.child_id at 2.
    destruct (id =? "")%string eqn:Hempty;
      [apply String.eqb_eq in Hempty; contradiction |].
    rewrite IH by (destruct id; [contradiction | discriminate]).
    cbn [String.concat]. destruct names as [| next names].
    + reflexivity.
    + now rewrite !append_assoc.
Qed.

(** X20: the id of a tree item is the path to it: opening names one after
    the other from the root item gives the names joined by slashes, as long
    as the first name is not empty.  Under an item with an empty id a child
    gets its bare name. *)
Theorem descend_joins_names first names :
  first <> EmptyString ->
  Editor.descend (first :: names) = String.concat "/" (first :: names) /\
  (forall result,
     Editor.children (Editor.descend (first :: names)) result =
     map (fun val => String.concat "/" (first :: names) ++ "/" ++ val)%string
       result) /\
  forall result, Editor.children "" result = result.
Proof.
  intros Hfirst.
  assert (Hpath : Editor.descend (first :: names)
                  = String.concat "/" (first :: names)).
  { unfold Editor.descend. cbn [fold_left]. now apply descend_from. }
  split; [exact Hpath | split].
  - intros result.
    unfold Editor.children. rewrite Hpath. apply map_ext. intros val.
    unfold Editor.child_id.
    destruct (String.concat "/" (first :: names) =? "")%string eqn:Hempty;
      [| reflexivity].
    apply String.eqb_eq in Hempty. exfalso.
    cbn [String.concat] in Hempty.
    destruct first; [contradiction |].
    destruct names; discriminate.
  - intros result. unfold Editor.children, Editor.child_id. cbn.
    apply map_id.
Qed.

Lemma descend_joins_names_witness :
  Editor.descend ["framework"; "metrics"; "system"] =
  "framework/metrics/system"%string.
Proof.
  exact (proj1 (descend_joins_names "framework" ["metrics"; "system"]
                  (fun H => match H with eq_refl => I end))).
Defined.

(** ** Where the requests go *)

Lemma sent_to_same_config c c1 e :
  same_config c c1 -> sent_to c1 e -> sent_to c e.
Proof.
  intros (Hhost & Huser & Hpass & Htime & _).
  destruct e; cbn [sent_to]; rewrite ?Hhost, ?Huser, ?Hpass, ?Htime; auto.
Qed.

Lemma transport_call_sent_to c op : sent_to c (transport_call c op).
Proof. destruct op; split; reflexivity. Qed.

Lemma logIn_sent_to fuel env c w r c' w' :
  logIn fuel env c w = Some (r, c', w') ->
  exists later, w' = later ++ w /\ Forall (sent_to c) later.
Proof.
  intros H. apply logIn_post_holds in H. destruct H as [_ H].
  unfold logIn_trace in H.
  assert (Hauth : sent_to c (authenticate_call c)) by (repeat split).
  assert (Hdel : sent_to c
                   (EvDeleteToken (_hostname c) (_tokenType c) (_token c)
                      (_timeout c))) by (split; reflexivity).
  assert (Hnow : sent_to c EvNow) by exact I.
  assert (Hwithout : forall w0,
             w0 = authenticate_call c ::
                    (if logged_in_or_authenticating (_state c)
                     then EvDeleteToken (_hostname c) (_tokenType c)
                            (_token c) (_timeout c) :: w
                     else w) ->
             exists later, w0 = later ++ w /\ Forall (sent_to c) later).
  { intros w0 ->. destruct (logged_in_or_authenticating (_state c)).
    - exists [authenticate_call c;
              EvDeleteToken (_hostname c) (_tokenType c) (_token c)
                (_timeout c)].
      split; [reflexivity | repeat constructor; assumption].
    - exists [authenticate_call c].
      split; [reflexivity | repeat constructor; assumption]. }
  destruct r as [d | err |].
  - destruct H as (exp & iat & _ & _ & _ & _ & _ & -> & _).
    destruct (logged_in_or_authenticating (_state c)).
    + exists [EvNow; authenticate_call c;
              EvDeleteToken (_hostname c) (_tokenType c) (_token c)
                (_timeout c)].
      split; [reflexivity | repeat constructor; assumption].
    + exists [EvNow; authenticate_call c].
      split; [reflexivity | repeat constructor; assumption].
  - destruct H as (_ & _ & Hw & _). now apply Hwithout.
  - destruct H as (_ & Hw & _). now apply Hwithout.
Qed.

(** X21: whatever a data-layer call does, every request it makes (the
    transport calls, the logins and the token deletions of its renewals and
    reconnects) goes to the host of the instance with the timeout of the
    instance, and every login sends the user name and the password of the
    instance. *)
Theorem call_requests_sent_to_host fuel env op c w r c' w' :
  call fuel env op c w = Some (r, c', w') ->
  exists later, w' = later ++ w /\ Forall (sent_to c) later.
Proof.
  rewrite call_invoke. revert op c w r c' w'.
  induction fuel as [| fuel IH]; intros op c w r c' w' H; [discriminate |].
  assert (Hstep : forall (first : list event) w1 w2 c1,
             same_config c c1 ->
             Forall (sent_to c) first ->
             (exists later, w1 = later ++ first ++ w /\
                            Forall (sent_to c) later) ->
             (exists later, w2 = later ++ w1 /\ Forall (sent_to c1) later) ->
             exists later, w2 = later ++ w /\ Forall (sent_to c) later).
  { intros first w1 w2 c1 Hsame Hfirst (l1 & -> & Hl1) (l2 & -> & Hl2).
    exists (l2 ++ l1 ++ first). split; [now rewrite !app_assoc |].
    rewrite !Forall_app. repeat split; auto.
    eapply Forall_impl; [| exact Hl2].
    intros e. now apply sent_to_same_config. }
  pose proof (transport_call_sent_to c op) as Hcall.
  invoke_cases H; subst.
  - exists []. split; [reflexivity | constructor].
  - apply logIn_sent_to in Hlogin. destruct Hlogin as (l & -> & Hl).
    exists (l ++ [EvNow]). split; [now rewrite <- app_assoc |].
    rewrite Forall_app. split; [assumption | repeat constructor].
  - pose proof (logIn_same_config _ _ _ _ _ _ _ Hlogin) as Hsame.
    apply logIn_sent_to in Hlogin. apply IH in Hretry.
    apply (Hstep [EvNow] w1 w' c1 Hsame); [repeat constructor | | assumption].
    destruct Hlogin as (l & -> & Hl). exists l. split; [reflexivity | auto].
  - exists [transport_call c op; EvNow].
    split; [reflexivity | repeat constructor; assumption].
  - exists [transport_call c op; EvNow].
    split; [reflexivity | repeat constructor; assumption].
  - apply logIn_sent_to in Hlogin. destruct Hlogin as (l & -> & Hl).
    exists (l ++ [transport_call c op; EvNow]).
    split; [now rewrite <- app_assoc |].
    rewrite Forall_app. split; [assumption | repeat constructor; assumption].
  - pose proof (logIn_same_config _ _ _ _ _ _ _ Hlogin) as Hsame.
    apply logIn_sent_to in Hlogin. apply IH in Hretry.
    apply (Hstep [transport_call c op; EvNow] w1 w' c1 Hsame);
      [repeat constructor; assumption | | assumption].
    destruct Hlogin as (l & -> & Hl). exists l. split; [reflexivity | auto].
  - apply logIn_sent_to in Hlogin. destruct Hlogin as (l & -> & Hl).
    exists (l ++ [EvNow]). split; [now rewrite <- app_assoc |].
    rewrite Forall_app. split; [assumption | repeat constructor].
  - apply logIn_sent_to in Hlogin. destruct Hlogin as (l & -> & Hl).
    exists (l ++ [transport_call c op; EvNow]).
    split; [now rewrite <- app_assoc |].
    rewrite Forall_app. split; [assumption | repeat constructor; assumption].
Qed.

Lemma call_requests_sent_to_host_witness :
  exists later,
    [EvWrite "192.168.1.1" (Some "Bearer") (Some "token-3") "a/b/c"
       (VNum 7) (-1);
     EvNow; EvNow;
     EvAuthenticate "192.168.1.1" "boschrexroth" "boschrexroth" (-1);
     EvDeleteToken "192.168.1.1" (Some "Bearer") (Some "token-2") (-1);
     EvWrite "192.168.1.1" (Some "Bearer") (Some "token-2") "a/b/c"
       (VNum 7) (-1);
     EvNow; EvNow;
     EvAuthenticate "192.168.1.1" "boschrexroth" "boschrexroth" (-1);
     EvDeleteToken "192.168.1.1" (Some "Bearer") (Some "token-1") (-1);
     EvWrite "192.168.1.1" (Some "Bearer") (Some "token-1") "a/b/c"
       (VNum 7) (-1);
     EvNow] ++ login_events = later ++ login_events /\
    Forall (sent_to (logged_in_instance true)) later.
Proof.
  exact (call_requests_sent_to_host _ _ _ _ _ _ _ _ chained_reconnect).
Defined.
